(** * IntelliScan resume analyser (app.py): a shallow embedding and its properties

    The analyser reads the text of an uploaded resume, intersects the nouns
    found by a part-of-speech tagger with a per-role skill catalog, measures
    the word overlap with a pasted job description, looks for the keywords of
    five resume sections and renders a report.

    Conventions of the embedding.
    - A Python [str] is a [string] with one [ascii] per code point, so the
      texts range over U+0000..U+00FF; [lower] and [isspace] are Python's on
      that range.  Labels of the user interface are written without their
      decorative emoji, which lie outside it.
    - A Python [set] of strings is a [gset string], the catalog [dict] a
      [gmap]; the insertion-ordered [dict] of section keywords, whose order
      is observable, is an association list.
    - A Python [float] is a binary64 [spec_float] with the operations of
      [SpecFloat] at precision 53; a number is an [int] or a [float].
    - Exceptions are the [Raise] case of [result]; the user interface is a
      log of the Streamlit calls made.
    - The third-party libraries (spaCy, pdfplumber, python-docx, FPDF) are the
      fields of the class [Libs].
    - The order in which a [set] keeps its elements, which differs between
      runs, is left out of [gset]; [AppRun] has the Skill Matcher with it. *)

From Stdlib Require Import ZArith Lia String Ascii List Bool.
From Stdlib Require Import Floats.SpecFloat.
From stdpp Require Import gmap strings list fin_maps pretty.

Open Scope string_scope.
Open Scope Z_scope.

(* ===================================================================== *)
(** * Part I: definitions                                                 *)
(* ===================================================================== *)

(** ** Python strings *)

Module PyStr.

Definition code (c : ascii) : Z := Z.of_nat (nat_of_ascii c).

(** [str.isspace] on one character below U+0100. *)
Definition isspace (c : ascii) : bool :=
  let n := code c in
  ((9 <=? n) && (n <=? 13)) || ((28 <=? n) && (n <=? 32))
  || (n =? 133) || (n =? 160).

(** [str.lower] on one character below U+0100: A-Z and the accented
    capitals U+00C0..U+00DE other than the multiplication sign. *)
Definition lower_char (c : ascii) : ascii :=
  let n := code c in
  if ((65 <=? n) && (n <=? 90))
     || ((192 <=? n) && (n <=? 222) && negb (n =? 215))
  then ascii_of_nat (Z.to_nat (n + 32)) else c.

Fixpoint lower (s : string) : string :=
  match s with
  | EmptyString => EmptyString
  | String c r => String (lower_char c) (lower r)
  end.

(** [s.split()]: the maximal runs of non-space characters; [cur] is the
    run being read. *)
Fixpoint split_from (cur : string) (s : string) : list string :=
  match s with
  | EmptyString => if String.eqb cur "" then [] else [cur]
  | String c r =>
      if isspace c
      then (if String.eqb cur "" then split_from "" r
            else cur :: split_from "" r)
      else split_from (cur +:+ String c "") r
  end.

Definition split (s : string) : list string := split_from "" s.

Fixpoint startswith (p s : string) : bool :=
  match p, s with
  | EmptyString, _ => true
  | String a p', String b s' => Ascii.eqb a b && startswith p' s'
  | String _ _, EmptyString => false
  end.

(** [needle in hay]. *)
Fixpoint contains (needle hay : string) : bool :=
  startswith needle hay
  || match hay with
     | EmptyString => false
     | String _ r => contains needle r
     end.

(** [sep.join(l)]. *)
Fixpoint join (sep : string) (l : list string) : string :=
  match l with
  | [] => ""
  | [x] => x
  | x :: r => x +:+ sep +:+ join sep r
  end.

(** [s.rfind(c)] for a one-character [c]: the last index, or -1. *)
Fixpoint rfind_from (c : ascii) (s : string) (i : Z) (last : Z) : Z :=
  match s with
  | EmptyString => last
  | String a r => rfind_from c r (i + 1) (if Ascii.eqb a c then i else last)
  end.

Definition rfind (c : ascii) (s : string) : Z := rfind_from c s 0 (-1).

(** [s[:i]] and [s[i:]] for [0 <= i]. *)
Definition take (i : Z) (s : string) : string :=
  String.substring 0 (Z.to_nat i) s.
Definition drop (i : Z) (s : string) : string :=
  String.substring (Z.to_nat i) (String.length s - Z.to_nat i) s.

(** [s[i:i+1]]. *)
Definition at_ (i : Z) (s : string) : string :=
  String.substring (Z.to_nat i) 1 s.

(** The loop of [genericpath._splitext] that skips the leading dots of
    the file name; [n] bounds the iterations left. *)
Fixpoint splitext_loop (n : nat) (p : string) (filenameIndex dotIndex : Z)
  : string * string :=
  match n with
  | O => (p, "")
  | S n' =>
      if filenameIndex <? dotIndex then
        if negb (String.eqb (at_ filenameIndex p) ".")
        then (take dotIndex p, drop dotIndex p)
        else splitext_loop n' p (filenameIndex + 1) dotIndex
      else (p, "")
  end.

(** [os.path.splitext] (posixpath: separator "/", no alternative). *)
Definition splitext (p : string) : string * string :=
  let sepIndex := rfind "/"%char p in
  let dotIndex := rfind "."%char p in
  if sepIndex <? dotIndex
  then splitext_loop (String.length p) p (sepIndex + 1) dotIndex
  else (p, "").

(** Truth value of a string. *)
Definition truthy (s : string) : bool := negb (String.eqb s "").

Definition newline : string := String (ascii_of_nat 10) "".

End PyStr.

(** ** Python numbers *)

Module PyNum.

Definition prec : Z := 53.
Definition emax : Z := 1024.

Inductive pynum :=
| PyInt (z : Z)
| PyFloat (f : spec_float).

(** [float(n)]. *)
Definition float_of_int (n : Z) : spec_float :=
  binary_normalize prec emax n 0 false.

(** An integer as the operand of a true division: the float of mantissa
    [n] and exponent 0, which is not rounded. *)
Definition int_operand (n : Z) : spec_float :=
  match n with
  | Z0 => S754_zero false
  | Zpos p => S754_finite false p 0
  | Zneg p => S754_finite true p 0
  end.

(** [a / b] on two [int]s.  Python returns the float nearest to the exact
    quotient, ties to even; [SFdiv] rounds the exact quotient of the values
    of its operands that way, and takes the integers as they are.  Below
    2^53 this is the division of the converted floats ([int_truediv_small]
    checks a range).  The callers guard [b <> 0]. *)
Definition int_truediv (a b : Z) : spec_float :=
  SFdiv prec emax (int_operand a) (int_operand b).

(** [x * n] for a [float] [x] and an [int] [n]. *)
Definition float_mul_int (x : spec_float) (n : Z) : spec_float :=
  SFmul prec emax x (float_of_int n).

Definition to_float (x : pynum) : spec_float :=
  match x with
  | PyInt z => float_of_int z
  | PyFloat f => f
  end.

(** [a <= b]. *)
Definition le (a b : pynum) : bool :=
  match a, b with
  | PyInt x, PyInt y => x <=? y
  | _, _ => SFleb (to_float a) (to_float b)
  end.

(** [a < b]. *)
Definition lt (a b : pynum) : bool :=
  match a, b with
  | PyInt x, PyInt y => x <? y
  | _, _ => SFltb (to_float a) (to_float b)
  end.

(** [a == b]. *)
Definition eqb (a b : pynum) : bool :=
  match a, b with
  | PyInt x, PyInt y => x =? y
  | _, _ => SFeqb (to_float a) (to_float b)
  end.

(** The integer nearest to [num / den], ties to even, for [0 < den]. *)
Definition round_half_even (num den : Z) : Z :=
  let q := num / den in
  let r := num mod den in
  match 2 * r ?= den with
  | Lt => q
  | Gt => q + 1
  | Eq => if Z.even q then q else q + 1
  end.

Definition digit (d : Z) : ascii := ascii_of_nat (Z.to_nat (48 + d)).

(** The decimal writing of hundredths [h >= 0] with two decimals. *)
Definition hundredths (h : Z) : string :=
  pretty (h / 100) +:+ "."
    +:+ String (digit ((h mod 100) / 10)) (String (digit (h mod 10)) "").

(** [format(x, ".2f")]. *)
Definition format_2f (x : pynum) : string :=
  match x with
  | PyInt z => (if z <? 0 then "-" else "") +:+ hundredths (100 * Z.abs z)
  | PyFloat (S754_zero s) => (if s then "-" else "") +:+ "0.00"
  | PyFloat (S754_infinity s) => (if s then "-" else "") +:+ "inf"
  | PyFloat S754_nan => "nan"
  | PyFloat (S754_finite s m e) =>
      let h := match e with
               | Zneg k => round_half_even (100 * Zpos m) (2 ^ Zpos k)
               | _ => 100 * Zpos m * 2 ^ e
               end in
      (if s then "-" else "") +:+ hundredths h
  end.

End PyNum.

Export PyNum.

(** ** Exceptions *)

Inductive result (A : Type) : Type :=
| Ok (a : A)
| Raise (e : string).
Arguments Ok {A} a.
Arguments Raise {A} e.

#[export] Instance result_ret : MRet result := fun A a => Ok a.
#[export] Instance result_bind : MBind result := fun A B f r =>
  match r with
  | Ok a => f a
  | Raise e => Raise e
  end.

(** ** The libraries the program calls *)

(** A token of a spaCy document: its text and its coarse part of speech. *)
Record Token := { text : string; pos_ : string }.

(** A file handed over by the upload widget. *)
Record UploadedFile := { name : string; content : list Byte.byte }.

(** The methods of an [FPDF] object that the report uses; a document is the
    sequence of the calls made on it. *)
Inductive fpdf_call :=
| add_page
| set_font (family style : string) (size : Z)
| cell (w h : Z) (txt : string) (ln : bool) (align : string)
| ln (h : Z)
| multi_cell (w h : Z) (txt : string).

Definition FPDF := list fpdf_call.

Class Libs := {
  (** [nlp(text)]: the tokens of the spaCy pipeline. *)
  nlp : string -> list Token;
  (** [pdfplumber.open(f).pages], each page with its [extract_text()]. *)
  pdf_pages : UploadedFile -> result (list (option string));
  (** [docx.Document(f).paragraphs], each paragraph with its [text]. *)
  docx_paragraphs : UploadedFile -> result (list string);
  (** [pdf.output(dest="S")]. *)
  fpdf_output : FPDF -> result string
}.

(** ** The program *)

Module App.
Section WithLibs.
Context {L : Libs}.

Import PyStr.

Definition len (s : gset string) : Z := Z.of_nat (size s).

(** Truth value of a set, of a list, of an optional string. *)
Definition nonempty_set (s : gset string) : bool := negb (size s =? 0)%nat.
Definition nonempty_list {A} (l : list A) : bool :=
  match l with [] => false | _ => true end.
Definition truthy_opt (o : option string) : bool :=
  match o with None => false | Some s => truthy s end.

Definition extract_text (uploaded_file : UploadedFile)
  : result (option string) :=
  let file_extension := lower (snd (splitext (name uploaded_file))) in
  if String.eqb file_extension ".pdf" then
    pages ← pdf_pages uploaded_file;
    mret (Some (join newline
                  (omap (fun t => if truthy_opt t then t else None) pages)))
  else if String.eqb file_extension ".docx" then
    paragraphs ← docx_paragraphs uploaded_file;
    mret (Some (join newline paragraphs))
  else mret None.

Definition predefined_skills : gmap string (gset string) :=
  <["Software Engineer" :=
      {["Python"; "Java"; "C++"; "Machine Learning"; "Git"; "SQL"; "Docker";
        "Kubernetes"; "JavaScript"; "React"; "Node.js"]}]>
  (<["Data Scientist" :=
      {["Pandas"; "NumPy"; "Deep Learning"; "Statistics"; "Python"; "R";
        "TensorFlow"; "PyTorch"; "SQL"; "Data Visualization"]}]>
  (<["Marketing" :=
      {["SEO"; "Google Ads"; "Content Writing"; "Social Media"; "Branding";
        "Google Analytics"; "Copywriting"; "Email Marketing"]}]>
  (<["UI/UX Designer" :=
      {["Figma"; "Adobe XD"; "Wireframing"; "User Research"; "Sketch";
        "Prototyping"; "Design Thinking"]}]>
  (<["Cybersecurity Analyst" :=
      {["Network Security"; "Ethical Hacking"; "Cryptography"; "Firewalls";
        "Incident Response"; "Penetration Testing"]}]>
  ∅)))).

(** The keys of the catalog in the order of the source, as the role
    selector lists them. *)
Definition role_names : list string :=
  ["Software Engineer"; "Data Scientist"; "Marketing"; "UI/UX Designer";
   "Cybersecurity Analyst"].

Definition is_noun (t : Token) : bool :=
  String.eqb (pos_ t) "NOUN" || String.eqb (pos_ t) "PROPN".

Definition extract_skills_nlp (txt : string) : gset string :=
  let doc := nlp txt in
  list_to_set (map text (filter (fun t => is_noun t = true) doc)).

Definition match_skills (resume_text job_role : string)
  : gset string * gset string * pynum :=
  let extracted_skills := extract_skills_nlp resume_text in
  let job_skills := default ∅ (predefined_skills !! job_role) in
  let matched_skills := extracted_skills ∩ job_skills in
  let missing_skills := job_skills ∖ matched_skills in
  let match_percentage :=
    if nonempty_set job_skills
    then PyFloat (float_mul_int
                    (int_truediv (len matched_skills) (len job_skills)) 100)
    else PyInt 0 in
  (matched_skills, missing_skills, match_percentage).

Definition job_match_percentage (resume_text job_description : string)
  : pynum :=
  let resume_words : gset string := list_to_set (split (lower resume_text)) in
  let job_words : gset string :=
    list_to_set (split (lower job_description)) in
  let match_count := len (resume_words ∩ job_words) in
  if nonempty_set job_words
  then PyFloat (float_mul_int (int_truediv match_count (len job_words)) 100)
  else PyInt 0.

Definition sections : list (string * list string) :=
  [("Education", ["education"; "degree"; "bachelor"; "master"; "university"]);
   ("Experience", ["experience"; "internship"; "company"; "work"]);
   ("Skills", ["skills"; "technologies"; "expertise"]);
   ("Certifications", ["certification"; "course"; "training"]);
   ("Projects", ["projects"; "portfolio"; "github"])].

Definition check_resume_format (resume_text : string) : list string :=
  map fst
    (filter (fun sk : string * list string =>
               negb (existsb (fun keyword =>
                                contains keyword (lower resume_text))
                             (snd sk)) = true)
            sections).

(** [", ".join(c) if c else "None"] for a collection iterated as [items]. *)
Definition joined_or_none (items : list string) : string :=
  if nonempty_list items then join ", " items else "None".

(** [s.encode("latin1")]. *)
Definition encode_latin1 (s : string) : list Byte.byte :=
  map byte_of_ascii (list_ascii_of_string s).

(** The calls that [generate_pdf] makes on its [FPDF] object, in order. *)
Definition report_document
    (job_role : string) (skill_match_score job_match_score : pynum)
    (matched_skills missing_skills : gset string)
    (missing_sections : list string) : FPDF :=
  [ add_page;
    set_font "Arial" "B" 16;
    cell 200 10 "IntelliScan Resume Analysis Report" true "C";
    set_font "Arial" "" 12;
    cell 200 10 ("Job Role: " +:+ job_role) true "";
    cell 200 10
      ("Skill Match Score: " +:+ format_2f skill_match_score +:+ "%") true "";
    cell 200 10
      ("Job Match Score: " +:+ format_2f job_match_score +:+ "%") true "";
    ln 5;
    cell 200 10 "Matched Skills:" true "";
    multi_cell 0 10 (joined_or_none (elements matched_skills));
    ln 5;
    cell 200 10 "Missing Skills:" true "";
    multi_cell 0 10 (joined_or_none (elements missing_skills));
    ln 5;
    cell 200 10 "Missing Resume Sections:" true "";
    multi_cell 0 10 (joined_or_none missing_sections) ].

Definition generate_pdf
    (job_role : string) (skill_match_score job_match_score : pynum)
    (matched_skills missing_skills : gset string)
    (missing_sections : list string) : result (list Byte.byte) :=
  let pdf := report_document job_role skill_match_score job_match_score
               matched_skills missing_skills missing_sections in
  out ← fpdf_output pdf;
  mret (encode_latin1 out).

(** *** The Streamlit loop

    A run of the script leaves a log of the display calls it made; an
    exception keeps what was displayed before it. *)

Inductive st_call :=
| divider
| subheader (body : string)
| columns (n : Z)
| metric (col : Z) (label value : string)
| markdown (body : string)
| success (body : string)
| warning (body : string)
| error (body : string)
| download_button (label : string) (data : list Byte.byte)
    (file_name mime : string).

Definition ui (A : Type) : Type := list st_call -> result A * list st_call.

Definition ui_ret {A} (a : A) : ui A := fun log => (Ok a, log).
Definition ui_bind {A B} (m : ui A) (k : A -> ui B) : ui B := fun log =>
  match m log with
  | (Ok a, log') => k a log'
  | (Raise e, log') => (Raise e, log')
  end.
Definition st (c : st_call) : ui unit := fun log => (Ok tt, (log ++ [c])%list).
Definition lift {A} (r : result A) : ui A := fun log => (r, log).

Notation "x <- m ;; k" := (ui_bind m (fun x => k))
  (at level 100, m at next level, right associativity).
Notation "m ;; k" := (ui_bind m (fun _ => k))
  (at level 100, right associativity).

(** The body of the [for] loop, for one uploaded file. *)
Definition analyse_file (job_description job_role : string)
    (uploaded_file : UploadedFile) : ui unit :=
  resume_text <- lift (extract_text uploaded_file) ;;
  match resume_text with
  | Some resume_text =>
    if truthy resume_text then
      let '(matched_skills, missing_skills, skill_match_score) :=
        match_skills resume_text job_role in
      let job_match_score :=
        job_match_percentage resume_text job_description in
      let missing_sections := check_resume_format resume_text in
      st divider ;;
      st (subheader ("Analysis for: `" +:+ name uploaded_file +:+ "`")) ;;
      st (columns 2) ;;
      st (metric 1 "Skill Match" (format_2f skill_match_score +:+ "%")) ;;
      st (metric 2 "Job Match" (format_2f job_match_score +:+ "%")) ;;
      st (markdown "### Skills Overview") ;;
      st (success ("Matched Skills: "
                   +:+ joined_or_none (elements matched_skills))) ;;
      st (warning ("Missing Skills: "
                   +:+ joined_or_none (elements missing_skills))) ;;
      st (markdown "### Resume Formatting Check") ;;
      (if nonempty_list missing_sections
       then st (error ("Missing Sections: " +:+ join ", " missing_sections))
       else st (success "Resume is well-structured!")) ;;
      pdf_bytes <- lift (generate_pdf job_role skill_match_score
                           job_match_score matched_skills missing_skills
                           missing_sections) ;;
      st (download_button
            ("Download Report for " +:+ name uploaded_file) pdf_bytes
            (name uploaded_file +:+ "_analysis.pdf") "application/pdf")
    else ui_ret tt
  | None => ui_ret tt
  end.

Fixpoint for_each (job_description job_role : string)
    (uploaded_files : list UploadedFile) : ui unit :=
  match uploaded_files with
  | [] => ui_ret tt
  | uploaded_file :: rest =>
      analyse_file job_description job_role uploaded_file ;;
      for_each job_description job_role rest
  end.

(** The guarded loop that ends the script. *)
Definition main (uploaded_files : list UploadedFile)
    (job_description job_role : string) : ui unit :=
  if nonempty_list uploaded_files && truthy job_description
  then for_each job_description job_role uploaded_files
  else ui_ret tt.

End WithLibs.
End App.

(** ** The Skill Matcher with the order of its sets

    A Python [set] keeps its elements in an order that depends on the hash
    seed of the run and on how the set was built; two runs of the program
    on the same inputs may hold the same set in two orders.  Here a set is
    the list of its elements in the order it keeps them, and a run fixes,
    for each place of the Skill Matcher that builds a set, the order that
    the new set gives to the elements inserted into it. *)

Record Run := {
  (** the comprehension of [extract_skills_nlp] *)
  set_comprehension : list string -> list string;
  (** the literals of [predefined_skills] *)
  set_literal : list string -> list string;
  (** [extracted_skills.intersection(job_skills)] *)
  set_intersection : list string -> list string;
  (** [job_skills - matched_skills] *)
  set_difference : list string -> list string
}.

Module AppRun.
Section WithLibs.
Context {L : Libs} (R : Run).

(** The literal of [predefined_skills], as it is written. *)
Definition predefined_skills_source : list (string * list string) :=
  [("Software Engineer",
    ["Python"; "Java"; "C++"; "Machine Learning"; "Git"; "SQL"; "Docker";
     "Kubernetes"; "JavaScript"; "React"; "Node.js"]);
   ("Data Scientist",
    ["Pandas"; "NumPy"; "Deep Learning"; "Statistics"; "Python"; "R";
     "TensorFlow"; "PyTorch"; "SQL"; "Data Visualization"]);
   ("Marketing",
    ["SEO"; "Google Ads"; "Content Writing"; "Social Media"; "Branding";
     "Google Analytics"; "Copywriting"; "Email Marketing"]);
   ("UI/UX Designer",
    ["Figma"; "Adobe XD"; "Wireframing"; "User Research"; "Sketch";
     "Prototyping"; "Design Thinking"]);
   ("Cybersecurity Analyst",
    ["Network Security"; "Ethical Hacking"; "Cryptography"; "Firewalls";
     "Incident Response"; "Penetration Testing"])].

(** [d.get(key)] on the literal. *)
Fixpoint dict_get (key : string) (d : list (string * list string))
  : option (list string) :=
  match d with
  | [] => None
  | (k, v) :: rest => if String.eqb key k then Some v else dict_get key rest
  end.

(** [x in s]. *)
Definition member (x : string) (s : list string) : bool :=
  existsb (String.eqb x) s.

Definition extract_skills_nlp (txt : string) : list string :=
  let doc := nlp txt in
  set_comprehension R
    (map text (filter (fun t => App.is_noun t = true) doc)).

Definition match_skills (resume_text job_role : string)
  : list string * list string * pynum :=
  let extracted_skills := extract_skills_nlp resume_text in
  let job_skills :=
    match dict_get job_role predefined_skills_source with
    | Some skills => set_literal R skills
    | None => []
    end in
  let matched_skills :=
    set_intersection R
      (filter (fun x => member x job_skills = true) extracted_skills) in
  let missing_skills :=
    set_difference R
      (filter (fun x => member x matched_skills = false) job_skills) in
  let match_percentage :=
    if App.nonempty_list job_skills
    then PyFloat (float_mul_int
                    (int_truediv (Z.of_nat (length matched_skills))
                                 (Z.of_nat (length job_skills))) 100)
    else PyInt 0 in
  (matched_skills, missing_skills, match_percentage).

End WithLibs.
End AppRun.

(** ** Vocabulary of the statements *)

(** A set built from the elements inserted holds each of them once, in
    some order. *)
Definition keeps_elements (build : list string -> list string) : Prop :=
  forall inserted,
    NoDup (build inserted) /\
    forall x, x ∈ build inserted <-> x ∈ inserted.

(** Every set that the run builds holds the elements inserted. *)
Definition run_ok (R : Run) : Prop :=
  keeps_elements (set_comprehension R) /\ keeps_elements (set_literal R) /\
  keeps_elements (set_intersection R) /\ keeps_elements (set_difference R).

(** The floats 0.0, 1.0 and 100.0. *)
Definition float_zero : spec_float := S754_zero false.
Definition float_one : spec_float := S754_finite false 4503599627370496 (-52).
Definition float_hundred : spec_float :=
  S754_finite false 7036874417766400 (-46).

(** [0 <= x <= 100], as Python evaluates it. *)
Definition in_percent_range (x : pynum) : bool :=
  PyNum.le (PyInt 0) x && PyNum.le x (PyInt 100).

(** The exponent function of binary64. *)
Abbreviation fexp64 := (fexp prec emax).

(** The value of a number lies between 0 and 100: a finite float of
    mantissa [m] and exponent [e] has the value [m * 2 ^ e]. *)
Definition is_percentage (x : pynum) : Prop :=
  match x with
  | PyInt z => 0 <= z <= 100
  | PyFloat f =>
      f = S754_zero false \/
      exists m e, f = S754_finite false m e /\ e <= 0 /\
                  Zpos m <= 100 * 2 ^ (- e)
  end.

(** Structural equality of two floats. *)
Definition SF_same (x y : spec_float) : bool :=
  match x, y with
  | S754_zero a, S754_zero b => Bool.eqb a b
  | S754_infinity a, S754_infinity b => Bool.eqb a b
  | S754_nan, S754_nan => true
  | S754_finite a m e, S754_finite b n f =>
      Bool.eqb a b && (m =? n)%positive && (e =? f)
  | _, _ => false
  end.

(** The value that a shift record of [SpecFloat] stands for is at most the
    integer [B]: its mantissa is below [B], or equals it with no bit shifted
    out. *)
Definition rec_le (r : shr_record) (B : Z) : Prop :=
  shr_m r < B \/ (shr_m r = B /\ shr_r r = false /\ shr_s r = false).

(** A float between 0 and the float of mantissa [mb] and exponent [eb]. *)
Definition between_zero_and (mb : positive) (eb : Z) (x : spec_float) : Prop :=
  x = S754_zero false \/
  exists m e, x = S754_finite false m e /\ e <= eb /\
              Zpos m <= Zpos mb * 2 ^ (eb - e).

(** [needle] occurs in [hay]. *)
Definition Substring (needle hay : string) : Prop :=
  exists pre post, hay = pre +:+ needle +:+ post.

(** The words of a text: it is lower-cased and split on whitespace. *)
Definition word_set (txt : string) : gset string :=
  list_to_set (PyStr.split (PyStr.lower txt)).

(** The percentage of [whole] that [part] makes up, as the specification
    words it: 0 for an empty [whole]. *)
Definition spec_percentage (part whole : gset string) : pynum :=
  if decide (whole = ∅) then PyInt 0
  else PyFloat (float_mul_int (int_truediv (App.len part) (App.len whole)) 100).

(** The Skill Matcher as the specification words it, from the tokens of the
    tagger and the skill set of the role. *)
Definition spec_match_skills (tokens catalog : gset string)
  : gset string * gset string * pynum :=
  let matched := tokens ∩ catalog in
  (matched, catalog ∖ matched, spec_percentage matched catalog).

(** The Job-Description Matcher as the specification words it. *)
Definition spec_job_match (resume_text job_description : string) : pynum :=
  spec_percentage (word_set resume_text ∩ word_set job_description)
                  (word_set job_description).

(** The extension that the Text Extractor dispatches on. *)
Definition file_extension (f : UploadedFile) : string :=
  PyStr.lower (snd (PyStr.splitext (name f))).

(** The texts that a document draws, in order. *)
Definition document_texts (doc : FPDF) : list string :=
  omap (fun c => match c with
                 | cell _ _ txt _ _ => Some txt
                 | multi_cell _ _ txt => Some txt
                 | _ => None
                 end) doc.

Definition is_digit (c : ascii) : Prop := 48 <= PyStr.code c <= 57.

(** A number written with exactly two decimals. *)
Definition two_decimals (s : string) : Prop :=
  exists front d1 d2,
    s = front +:+ "." +:+ String d1 (String d2 "") /\ is_digit d1 /\ is_digit d2.

(** No character of [w] is whitespace. *)
Fixpoint NoSpace (w : string) : Prop :=
  match w with
  | EmptyString => True
  | String c r => PyStr.isspace c = false /\ NoSpace r
  end.

(** [s] is empty or begins with a whitespace character. *)
Definition space_first (s : string) : Prop :=
  match s with
  | EmptyString => True
  | String c _ => PyStr.isspace c = true
  end.

(** [s] ends with a whitespace character. *)
Definition space_last (s : string) : Prop :=
  exists front c, s = front +:+ String c "" /\ PyStr.isspace c = true.

(** [w] is a word of [s]: a non-empty run of non-space characters that is
    bounded on each side by whitespace or by an end of [s]. *)
Definition is_word (w s : string) : Prop :=
  w <> "" /\ NoSpace w /\
  exists pre post, s = pre +:+ w +:+ post /\
                   (pre = "" \/ space_last pre) /\ space_first post.

(** The words that [split_from cur s] yields: the run that continues
    [cur], or a later word of [s]. *)
Definition word_from (cur s w : string) : Prop :=
  (exists run post, s = run +:+ post /\ NoSpace run /\ space_first post /\
                    w = cur +:+ run /\ w <> "") \/
  (w <> "" /\ NoSpace w /\
   exists pre post, s = pre +:+ w +:+ post /\ space_last pre /\ space_first post).

(** The percentage that the matchers compute from two counts, the second
    one positive. *)
Definition percentage_of_counts (part whole : Z) : pynum :=
  PyFloat (float_mul_int (int_truediv part whole) 100).

(** No character of [s] is [c]. *)
Fixpoint lacks (c : ascii) (s : string) : Prop :=
  match s with
  | EmptyString => True
  | String a r => a <> c /\ lacks c r
  end.

(** Every character of [s] is [c]. *)
Fixpoint only (c : ascii) (s : string) : Prop :=
  match s with
  | EmptyString => True
  | String a r => a = c /\ only c r
  end.

(** A number other than an infinity or a NaN. *)
Definition finite_number (x : pynum) : Prop :=
  match x with
  | PyFloat (S754_infinity _) | PyFloat S754_nan => False
  | _ => True
  end.

(** ** Stand-ins for the libraries, to run the program on examples *)

Module Sample.

Definition text_of_bytes (b : list Byte.byte) : string :=
  string_of_list_ascii (map ascii_of_byte b).

Definition bytes_of_text (s : string) : list Byte.byte :=
  map byte_of_ascii (list_ascii_of_string s).

(** One token per word; a capitalised word is a proper noun, a word ending
    in "ing" a verb, any other one a noun. *)
Definition word_tagger (txt : string) : list Token :=
  map (fun w =>
         {| text := w;
            pos_ := match w with
                    | String c _ =>
                        if ((65 <=? PyStr.code c) && (PyStr.code c <=? 90))
                        then "PROPN"
                        else if PyStr.contains "ing" w then "VERB"
                        else "NOUN"
                    | EmptyString => "X"
                    end |})
      (PyStr.split txt).

(** The lines of a text. *)
Fixpoint lines_from (cur : string) (s : string) : list string :=
  match s with
  | EmptyString => [cur]
  | String c r =>
      if Ascii.eqb c (ascii_of_nat 10) then cur :: lines_from "" r
      else lines_from (cur +:+ String c "") r
  end.

(** One proper noun per line. *)
Definition line_tagger (txt : string) : list Token :=
  map (fun w => {| text := w; pos_ := "PROPN" |}) (lines_from "" txt).

(** A serialiser that writes the header, the texts and the trailer. *)
Definition plain_output (doc : FPDF) : result string :=
  Ok ("%PDF-1.3" +:+ PyStr.newline
      +:+ PyStr.join PyStr.newline (document_texts doc)
      +:+ PyStr.newline +:+ "%%EOF").

Definition word_libs : Libs :=
  {| nlp := word_tagger;
     pdf_pages := fun f => Ok [Some (text_of_bytes (content f))];
     docx_paragraphs := fun f => Ok [text_of_bytes (content f)];
     fpdf_output := plain_output |}.

Definition line_libs : Libs :=
  {| nlp := line_tagger;
     pdf_pages := fun f => Ok [Some (text_of_bytes (content f)); None];
     docx_paragraphs := fun f => Raise "PackageNotFoundError";
     fpdf_output := plain_output |}.

(** Sample inputs. *)

Definition marketing_skills : gset string :=
  {["SEO"; "Google Ads"; "Content Writing"; "Social Media"; "Branding";
    "Google Analytics"; "Copywriting"; "Email Marketing"]}.

Definition security_skills : gset string :=
  {["Network Security"; "Ethical Hacking"; "Cryptography"; "Firewalls";
    "Incident Response"; "Penetration Testing"]}.

Definition security_resume : string :=
  PyStr.join PyStr.newline
    ["Network Security"; "Ethical Hacking"; "Cryptography"; "Firewalls";
     "Incident Response"; "Penetration Testing"].

Definition notes_txt : UploadedFile :=
  {| name := "notes.txt"; content := bytes_of_text "Python SQL" |}.

Definition resume_pdf : UploadedFile :=
  {| name := "resume.PDF";
     content := bytes_of_text "Python and SQL experience, Docker skills" |}.

(** A run whose sets keep the elements in the order inserted, and a run
    whose comprehension and literals keep them in the reverse order. *)
Definition insertion_run : Run :=
  {| set_comprehension := remove_dups; set_literal := remove_dups;
     set_intersection := remove_dups; set_difference := remove_dups |}.

Definition reversed_run : Run :=
  {| set_comprehension := fun l => rev (remove_dups l);
     set_literal := fun l => rev (remove_dups l);
     set_intersection := remove_dups; set_difference := remove_dups |}.

Definition blank_pdf : UploadedFile :=
  {| name := "blank.pdf"; content := [] |}.

Definition broken_docx : UploadedFile :=
  {| name := "cv.docx"; content := bytes_of_text "not a package" |}.

End Sample.

(* ===================================================================== *)
(** * Part II: properties                                                 *)
(* ===================================================================== *)

(** ** Binary64 rounding

    The scores are computed in binary64.  The lemmas below bound what
    [binary_round_aux] returns, in integer arithmetic on mantissas: a value
    that is at most a canonical float rounds to at most that float. *)

Section Binary64Facts.

Lemma fexp64_eq e : fexp64 e = Z.max (e - 53) (-1074).
Proof. reflexivity. Qed.

Lemma fexp64_mono a b : a <= b -> fexp64 a <= fexp64 b.
Proof. rewrite !fexp64_eq. lia. Qed.

Lemma digits2_pos_bounds p :
  2 ^ (Zpos (digits2_pos p) - 1) <= Zpos p < 2 ^ Zpos (digits2_pos p).
Proof.
  induction p as [p IH | p IH |]; cbn [digits2_pos].
  - rewrite Pos2Z.inj_succ.
    replace (Z.succ (Zpos (digits2_pos p)) - 1) with (Zpos (digits2_pos p) - 1 + 1) by lia.
    rewrite Z.pow_succ_r by lia. rewrite Z.pow_add_r by lia.
    change (2 ^ 1) with 2. lia.
  - rewrite Pos2Z.inj_succ.
    replace (Z.succ (Zpos (digits2_pos p)) - 1) with (Zpos (digits2_pos p) - 1 + 1) by lia.
    rewrite Z.pow_succ_r by lia. rewrite Z.pow_add_r by lia.
    change (2 ^ 1) with 2. lia.
  - cbn. lia.
Qed.

Lemma Zdigits2_nonneg m : 0 <= Zdigits2 m.
Proof. destruct m; cbn; lia. Qed.

(** A non-negative integer below [2 ^ t] has at most [t] binary digits. *)
Lemma Zdigits2_le_of_lt m t : 0 <= m -> 0 <= t -> m < 2 ^ t -> Zdigits2 m <= t.
Proof.
  intros Hm Ht Hlt. destruct m as [| p | p]; cbn; try lia.
  destruct (digits2_pos_bounds p) as [Hlo _].
  destruct (Z_le_gt_dec (Zpos (digits2_pos p)) t) as [|Hgt]; [assumption|].
  exfalso.
  assert (2 ^ t <= 2 ^ (Zpos (digits2_pos p) - 1)) by (apply Z.pow_le_mono_r; lia).
  lia.
Qed.

Lemma Zdigits2_scaled_le m mb k :
  0 <= m -> 0 <= k -> m <= Zpos mb * 2 ^ k ->
  Zdigits2 m <= Zpos (digits2_pos mb) + k.
Proof.
  intros Hm Hk Hle. apply Zdigits2_le_of_lt; [lia | lia |].
  destruct (digits2_pos_bounds mb) as [_ Hhi].
  rewrite Z.pow_add_r by lia.
  assert (0 < 2 ^ k) by (apply Z.pow_pos_nonneg; lia).
  nia.
Qed.

(** ** Shifting a mantissa to the right *)

Lemma shr_1_le r B :
  0 <= shr_m r -> rec_le r (2 * B) ->
  0 <= shr_m (shr_1 r) /\ rec_le (shr_1 r) B.
Proof.
  destruct r as [m r s]. unfold rec_le. cbn [shr_m shr_r shr_s].
  intros Hm H.
  destruct m as [| [p | p |] | p]; cbn [shr_1 shr_m shr_r shr_s]; try lia.
  - split; [lia|]. destruct H as [H | (H & -> & ->)]; [left; lia |].
    right. cbn. split; [lia | auto].
  - rewrite Pos2Z.inj_xO in H. split; [lia|].
    destruct H as [H | (H & -> & ->)]; [left; lia |].
    right. cbn. split; [lia | auto].
Qed.

Lemma iter_pos_inv {A : Type} (f : A -> A) (I : Z -> A -> Prop) :
  (forall k x, I (k + 1) x -> I k (f x)) ->
  forall p k x, I (k + Zpos p) x -> I k (SpecFloat.iter_pos f p x).
Proof.
  intros Hstep. induction p as [p IH | p IH |]; intros k x H; cbn [SpecFloat.iter_pos].
  - apply IH. apply IH. apply Hstep.
    replace (k + Zpos p + Zpos p + 1) with (k + Zpos p~1) by lia. exact H.
  - apply IH. apply IH.
    replace (k + Zpos p + Zpos p) with (k + Zpos p~0) by lia. exact H.
  - apply Hstep. exact H.
Qed.

Lemma iter_shr_1_le p r B :
  0 <= shr_m r -> rec_le r (2 ^ Zpos p * B) ->
  0 <= shr_m (SpecFloat.iter_pos shr_1 p r) /\ rec_le (SpecFloat.iter_pos shr_1 p r) B.
Proof.
  intros Hm H.
  pose (I := fun (k : Z) (x : shr_record) =>
               0 <= k -> 0 <= shr_m x /\ rec_le x (2 ^ k * B)).
  assert (HI : I 0 (SpecFloat.iter_pos shr_1 p r)).
  { apply iter_pos_inv.
    - intros k x Hx Hk. destruct (Hx ltac:(lia)) as [Hx0 Hx1].
      apply shr_1_le; [assumption|].
      replace (2 * (2 ^ k * B)) with (2 ^ (k + 1) * B); [assumption|].
      rewrite Z.pow_add_r by lia. change (2 ^ 1) with 2. ring.
    - intros _. rewrite Z.add_0_l. auto. }
  destruct (HI ltac:(lia)) as [H0 H1]. rewrite Z.pow_0_r, Z.mul_1_l in H1. auto.
Qed.

Lemma shr_m_of_loc m l : shr_m (shr_record_of_loc m l) = m.
Proof. destruct l as [| []]; reflexivity. Qed.

Lemma rec_le_mantissa r B : rec_le r B -> shr_m r <= B.
Proof. unfold rec_le. lia. Qed.

(** One [shr_fexp] keeps a bound by a canonical float [(mb, eb)]. *)
Lemma shr_fexp_le m e l mb eb :
  0 <= m -> eb = fexp64 (Zpos (digits2_pos mb) + eb) -> e <= eb ->
  rec_le (shr_record_of_loc m l) (Zpos mb * 2 ^ (eb - e)) ->
  e <= snd (shr_fexp prec emax m e l) <= eb /\
  0 <= shr_m (fst (shr_fexp prec emax m e l)) /\
  rec_le (fst (shr_fexp prec emax m e l))
         (Zpos mb * 2 ^ (eb - snd (shr_fexp prec emax m e l))).
Proof.
  intros Hm Hcan He Hle. unfold shr_fexp, shr.
  assert (Hmle : m <= Zpos mb * 2 ^ (eb - e)).
  { apply rec_le_mantissa in Hle. rewrite shr_m_of_loc in Hle. exact Hle. }
  assert (Hd : fexp64 (Zdigits2 m + e) <= eb).
  { rewrite Hcan. apply fexp64_mono.
    pose proof (Zdigits2_scaled_le m mb (eb - e) Hm ltac:(lia) Hmle). lia. }
  destruct (fexp64 (Zdigits2 m + e) - e) as [| p | p] eqn:En; cbn [fst snd].
  - rewrite shr_m_of_loc. auto with zarith.
  - split; [lia|].
    apply iter_shr_1_le; [rewrite shr_m_of_loc; lia|].
    replace (2 ^ Zpos p * (Zpos mb * 2 ^ (eb - (e + Zpos p))))
      with (Zpos mb * 2 ^ (eb - e)); [assumption|].
    replace (eb - e) with (Zpos p + (eb - (e + Zpos p))) by lia.
    rewrite Z.pow_add_r by lia. ring.
  - rewrite shr_m_of_loc. auto with zarith.
Qed.

Lemma round_nearest_even_le r B :
  0 <= shr_m r -> rec_le r B ->
  0 <= round_nearest_even (shr_m r) (loc_of_shr_record r) <= B.
Proof.
  destruct r as [m [|] [|]]; unfold rec_le; cbn [shr_m shr_r shr_s loc_of_shr_record round_nearest_even];
    intros Hm [H | (H & H1 & H2)]; try discriminate; try lia.
  destruct (Z.even m); lia.
Qed.

(** Rounding a value that is at most a canonical float gives at most that float. *)
Lemma binary_round_aux_le q e l mb eb :
  0 <= q -> eb = fexp64 (Zpos (digits2_pos mb) + eb) -> e <= eb -> eb <= 971 ->
  rec_le (shr_record_of_loc q l) (Zpos mb * 2 ^ (eb - e)) ->
  binary_round_aux prec emax false q e l = S754_zero false \/
  exists m2 e2,
    binary_round_aux prec emax false q e l = S754_finite false m2 e2 /\
    e2 <= eb /\ Zpos m2 <= Zpos mb * 2 ^ (eb - e2).
Proof.
  intros Hq Hcan He Hmax Hle. unfold binary_round_aux.
  destruct (shr_fexp_le q e l mb eb Hq Hcan He Hle) as (He1 & Hm1 & Hle1).
  destruct (shr_fexp prec emax q e l) as [r1 e1]. cbn [fst snd] in *.
  pose proof (round_nearest_even_le r1 _ Hm1 Hle1) as Hrne.
  set (m1 := round_nearest_even (shr_m r1) (loc_of_shr_record r1)) in *.
  assert (Hle2 : rec_le (shr_record_of_loc m1 loc_Exact) (Zpos mb * 2 ^ (eb - e1))).
  { unfold rec_le. cbn. lia. }
  destruct (shr_fexp_le m1 e1 loc_Exact mb eb ltac:(lia) Hcan ltac:(lia) Hle2)
    as (He2 & Hm2 & Hle2').
  destruct (shr_fexp prec emax m1 e1 loc_Exact) as [r2 e2]. cbn [fst snd] in *.
  apply rec_le_mantissa in Hle2'.
  destruct (shr_m r2) as [| p | p]; [left; reflexivity | right | lia].
  exists p, e2.
  assert (Hb : (e2 <=? emax - prec) = true)
    by (apply Z.leb_le; unfold emax, prec; lia).
  rewrite Hb. repeat split; [lia | assumption].
Qed.


(** ** True division of two integers *)

Lemma div_eucl_div_mod a b : Z.div_eucl a b = (a / b, a mod b).
Proof. unfold Z.div, Z.modulo. destruct (Z.div_eucl a b). reflexivity. Qed.

Lemma new_location_zero n : new_location n 0 = loc_Exact.
Proof.
  unfold new_location, new_location_even, new_location_odd.
  destruct (Z.even n); reflexivity.
Qed.

Lemma digits2_pos_mono p q : (p <= q)%positive -> Zpos (digits2_pos p) <= Zpos (digits2_pos q).
Proof.
  intros H.
  change (Zpos (digits2_pos p)) with (Zdigits2 (Zpos p)).
  apply Zdigits2_le_of_lt; [lia | lia |].
  destruct (digits2_pos_bounds q). lia.
Qed.

Lemma int_truediv_le_one m n :
  0 <= m <= n -> 0 < n ->
  between_zero_and 4503599627370496 (-52) (int_truediv m n).
Proof.
  intros [Hm Hmn] Hn. unfold int_truediv.
  destruct n as [| pn | pn]; try lia.
  destruct m as [| pm | pm]; try lia.
  { left. reflexivity. }
  cbn [int_operand SFdiv xorb]. unfold SFdiv_core_binary.
  cbn [Zdigits2].
  assert (Hd : Zpos (digits2_pos pm) <= Zpos (digits2_pos pn))
    by (apply digits2_pos_mono; lia).
  set (d1 := Zpos (digits2_pos pm)) in *. set (d2 := Zpos (digits2_pos pn)) in *.
  rewrite !Z.add_0_r, Z.sub_diag, Z.sub_0_l.
  assert (He : Z.min (fexp prec emax (d1 - d2)) 0 = fexp prec emax (d1 - d2)).
  { rewrite fexp64_eq. lia. }
  rewrite He. set (e' := fexp prec emax (d1 - d2)).
  assert (He' : e' <= -53) by (unfold e'; rewrite fexp64_eq; lia).
  destruct (- e') as [| s | s] eqn:Es; try lia.
  rewrite Z.shiftl_mul_pow2 by lia.
  rewrite div_eucl_div_mod.
  apply binary_round_aux_le.
  - apply Z.div_pos; [|lia]. assert (0 < 2 ^ Zpos s) by (apply Z.pow_pos_nonneg; lia). nia.
  - reflexivity.
  - lia.
  - lia.
  - replace (-52 - e') with (Zpos s - 52) by lia.
    replace (4503599627370496 * 2 ^ (Zpos s - 52)) with (2 ^ Zpos s).
    2:{ change 4503599627370496 with (2 ^ 52). rewrite <- Z.pow_add_r by lia.
        f_equal. lia. }
    assert (Hp : 0 < 2 ^ Zpos s) by (apply Z.pow_pos_nonneg; lia).
    destruct (Z.eq_dec (Zpos pm) (Zpos pn)) as [Heq | Hne].
    + rewrite Heq. rewrite Z.mul_comm, Z.div_mul, Z.mod_mul by lia.
      rewrite new_location_zero. right. cbn. auto.
    + left. rewrite shr_m_of_loc.
      apply Z.div_lt_upper_bound; [lia|]. nia.
Qed.

Lemma int_truediv_same n : 0 < n -> int_truediv n n = float_one.
Proof.
  intros Hn. unfold int_truediv. destruct n as [| p | p]; try lia.
  cbn [int_operand SFdiv xorb]. unfold SFdiv_core_binary.
  rewrite !Z.add_0_r, !Z.sub_diag.
  change (Z.min (fexp prec emax 0) 0) with (-53).
  change (0 - -53) with 53.
  rewrite Z.shiftl_mul_pow2 by lia.
  rewrite div_eucl_div_mod.
  rewrite Z.mul_comm, Z.div_mul, Z.mod_mul by lia.
  rewrite new_location_zero. reflexivity.
Qed.

Lemma int_truediv_zero n : 0 < n -> int_truediv 0 n = float_zero.
Proof. intros Hn. destruct n; try lia. reflexivity. Qed.

(** On small integers the quotient rounded once is the quotient of the two
    integers converted to floats, which are exact. *)
Lemma int_truediv_small :
  forallb (fun a =>
    forallb (fun b =>
      SF_same (int_truediv (Z.of_nat a) (Z.of_nat (S b)))
              (SFdiv prec emax (float_of_int (Z.of_nat a))
                               (float_of_int (Z.of_nat (S b)))))
            (seq 0 120))
    (seq 0 120) = true.
Proof. vm_compute. reflexivity. Qed.

Lemma float_of_int_100 : float_of_int 100 = float_hundred.
Proof. reflexivity. Qed.

Lemma float_mul_int_le_hundred x :
  between_zero_and 4503599627370496 (-52) x ->
  between_zero_and 7036874417766400 (-46) (float_mul_int x 100).
Proof.
  intros [-> | (m & e & -> & He & Hm)]; [left; reflexivity|].
  unfold float_mul_int. rewrite float_of_int_100. unfold float_hundred.
  cbn [SFmul xorb].
  apply binary_round_aux_le.
  - lia.
  - reflexivity.
  - lia.
  - lia.
  - replace (-46 - (e + -46)) with (- e) by lia.
    replace (4503599627370496 * 2 ^ (-52 - e)) with (2 ^ (- e)) in Hm.
    2:{ change 4503599627370496 with (2 ^ 52). rewrite <- Z.pow_add_r by lia.
        f_equal. lia. }
    unfold rec_le. cbn [shr_record_of_loc shr_m shr_r shr_s].
    rewrite Pos2Z.inj_mul.
    destruct (Z.eq_dec (Zpos m) (2 ^ (- e))) as [Heq | Hne].
    + right. rewrite Heq. split; [ring | auto].
    + left. nia.
Qed.

Lemma between_zero_and_leb mb eb x :
  between_zero_and mb eb x ->
  SFleb float_zero x = true /\ SFleb x (S754_finite false mb eb) = true.
Proof.
  intros [-> | (m & e & -> & He & Hm)]; [split; reflexivity|].
  split; [reflexivity|].
  unfold SFleb, SFcompare.
  destruct (Z.compare_spec e eb) as [Heq | Hlt | Hgt]; [| reflexivity | lia].
  subst e. rewrite Z.sub_diag, Z.pow_0_r, Z.mul_1_r in Hm.
  change (Pos.compare_cont Eq m mb) with (Pos.compare m mb).
  destruct (Pos.compare_spec m mb); try reflexivity. lia.
Qed.

End Binary64Facts.

(** ** Scores *)

Section Scores.
Import App.

Lemma nonempty_set_true (s : gset string) : nonempty_set s = true <-> s <> ∅.
Proof.
  unfold nonempty_set. rewrite negb_true_iff, Nat.eqb_neq.
  split; intros H E; apply H.
  - subst s. apply size_empty.
  - apply size_empty_inv in E. apply leibniz_equiv. exact E.
Qed.

Lemma nonempty_set_false (s : gset string) : nonempty_set s = false <-> s = ∅.
Proof.
  destruct (nonempty_set s) eqn:E.
  - apply nonempty_set_true in E. split; [discriminate | contradiction].
  - split; [intros _ | reflexivity].
    destruct (decide (s = ∅)) as [|Hne]; [assumption|].
    apply nonempty_set_true in Hne. congruence.
Qed.

Lemma len_pos (s : gset string) : s <> ∅ -> 0 < len s.
Proof.
  intros H. unfold len.
  assert (size s <> 0%nat); [|lia].
  intros E. apply H. apply size_empty_inv in E. apply leibniz_equiv. exact E.
Qed.

Lemma len_subseteq (a b : gset string) : a ⊆ b -> 0 <= len a <= len b.
Proof. intros H. apply subseteq_size in H. unfold len. lia. Qed.

(** The percentage as the code computes it is the one of the specification. *)
Lemma percentage_spec (part whole : gset string) :
  (if nonempty_set whole
   then PyFloat (float_mul_int (int_truediv (len part) (len whole)) 100)
   else PyInt 0) = spec_percentage part whole.
Proof.
  unfold spec_percentage. destruct (decide (whole = ∅)) as [E | E].
  - apply nonempty_set_false in E. rewrite E. reflexivity.
  - apply nonempty_set_true in E. rewrite E. reflexivity.
Qed.

Lemma spec_percentage_in_range (part whole : gset string) :
  part ⊆ whole -> in_percent_range (spec_percentage part whole) = true.
Proof.
  intros Hsub. unfold spec_percentage.
  destruct (decide (whole = ∅)) as [E | E]; [reflexivity|].
  pose proof (len_subseteq _ _ Hsub) as Hlen.
  pose proof (len_pos _ E) as Hpos.
  pose proof (float_mul_int_le_hundred _ (int_truediv_le_one _ _ Hlen Hpos)) as Hb.
  apply between_zero_and_leb in Hb. destruct Hb as [H0 H100].
  unfold in_percent_range, PyNum.le. cbn [to_float].
  change (float_of_int 0) with float_zero.
  change (float_of_int 100) with float_hundred.
  unfold float_hundred. rewrite H0, H100. reflexivity.
Qed.

Lemma spec_percentage_value (part whole : gset string) :
  part ⊆ whole -> is_percentage (spec_percentage part whole).
Proof.
  intros Hsub. unfold spec_percentage.
  destruct (decide (whole = ∅)) as [E | E]; [cbn; lia|].
  pose proof (len_subseteq _ _ Hsub) as Hlen.
  pose proof (len_pos _ E) as Hpos.
  destruct (float_mul_int_le_hundred _ (int_truediv_le_one _ _ Hlen Hpos))
    as [H0 | (m & e & Hf & He & Hm)]; cbn [is_percentage]; [left; assumption|].
  right. exists m, e. split; [assumption|]. split; [lia|].
  replace (100 * 2 ^ (- e)) with (7036874417766400 * 2 ^ (-46 - e));
    [assumption|].
  change 7036874417766400 with (100 * 2 ^ 46).
  rewrite <- Z.mul_assoc, <- Z.pow_add_r by lia. do 2 f_equal. lia.
Qed.

Lemma spec_percentage_all (whole : gset string) :
  whole <> ∅ -> spec_percentage whole whole = PyFloat float_hundred.
Proof.
  intros E. unfold spec_percentage.
  destruct (decide (whole = ∅)); [contradiction|].
  rewrite int_truediv_same by (apply len_pos; assumption). reflexivity.
Qed.

Lemma spec_percentage_none (whole : gset string) :
  whole <> ∅ -> spec_percentage ∅ whole = PyFloat float_zero.
Proof.
  intros E. unfold spec_percentage.
  destruct (decide (whole = ∅)); [contradiction|].
  unfold len at 1. rewrite size_empty. change (Z.of_nat 0) with 0.
  rewrite int_truediv_zero by (apply len_pos; assumption). reflexivity.
Qed.

End Scores.

(** ** The skill matcher *)

Section Skills.
Import App.
Context {L : Libs}.

(** Every role of the catalog has at least one skill. *)
Lemma catalog_nonempty (job_role : string) (catalog : gset string) :
  predefined_skills !! job_role = Some catalog -> catalog <> ∅.
Proof.
  unfold predefined_skills. intros H.
  repeat (apply lookup_insert_Some in H; destruct H as [[_ <-] | [_ H]];
          [intros E; apply (f_equal size) in E; vm_compute in E; discriminate|]).
  rewrite lookup_empty in H. discriminate.
Qed.

(** The roles offered by the selector are the keys of the catalog. *)
Lemma role_names_catalog (job_role : string) :
  In job_role role_names <-> is_Some (predefined_skills !! job_role).
Proof.
  split.
  - unfold role_names. cbn [In].
    intros [<- | [<- | [<- | [<- | [<- | []]]]]]; eexists; reflexivity.
  - intros [catalog H]. unfold predefined_skills in H.
    repeat (apply lookup_insert_Some in H;
            destruct H as [[<- _] | [_ H]]; [cbn; tauto|]).
    rewrite lookup_empty in H. discriminate.
Qed.

Lemma elem_of_extract_skills_nlp (txt w : string) :
  w ∈ extract_skills_nlp txt <->
  exists token, In token (nlp txt) /\ text token = w /\
                (pos_ token = "NOUN" \/ pos_ token = "PROPN").
Proof.
  unfold extract_skills_nlp. rewrite elem_of_list_to_set.
  rewrite list_elem_of_In, in_map_iff.
  split.
  - intros (token & Ht & Hin). exists token.
    apply list_elem_of_In, list_elem_of_filter in Hin. destruct Hin as [Hn Hin].
    apply list_elem_of_In in Hin. repeat split; try assumption.
    unfold is_noun in Hn. apply orb_true_iff in Hn.
    destruct Hn as [Hn | Hn]; apply String.eqb_eq in Hn; auto.
  - intros (token & Hin & Ht & Hpos). exists token. split; [assumption|].
    apply list_elem_of_In, list_elem_of_filter. split; [|apply list_elem_of_In; assumption].
    unfold is_noun. apply orb_true_iff.
    destruct Hpos as [-> | ->]; [left | right]; reflexivity.
Qed.

Lemma match_skills_unfold (resume_text job_role : string) :
  match_skills resume_text job_role =
  spec_match_skills (extract_skills_nlp resume_text)
                    (default ∅ (predefined_skills !! job_role)).
Proof.
  unfold match_skills, spec_match_skills. rewrite percentage_spec. reflexivity.
Qed.

(** C1.  For a role of the catalog, the Skill Matcher returns as matched the
    tokens that the tagger marks as nouns or proper nouns intersected with
    the skill set of the role, as missing that skill set minus the matched
    skills, and as score the percentage of the skill set that is matched,
    which is 0 for an empty skill set. *)
Theorem match_skills_spec (resume_text job_role : string) (catalog : gset string) :
  predefined_skills !! job_role = Some catalog ->
  (forall w, w ∈ extract_skills_nlp resume_text <->
             exists token, In token (nlp resume_text) /\ text token = w /\
                           (pos_ token = "NOUN" \/ pos_ token = "PROPN")) /\
  match_skills resume_text job_role =
    (extract_skills_nlp resume_text ∩ catalog,
     catalog ∖ (extract_skills_nlp resume_text ∩ catalog),
     spec_percentage (extract_skills_nlp resume_text ∩ catalog) catalog) /\
  (catalog = ∅ -> snd (match_skills resume_text job_role) = PyInt 0).
Proof.
  intros Hrole. split; [apply elem_of_extract_skills_nlp|].
  rewrite match_skills_unfold, Hrole. cbn [default from_option id]. split; [reflexivity|].
  intros ->. reflexivity.
Qed.

Lemma partition_by_intersection (tokens catalog : gset string) :
  (tokens ∩ catalog) ∩ (catalog ∖ (tokens ∩ catalog)) = ∅ /\
  (tokens ∩ catalog) ∪ (catalog ∖ (tokens ∩ catalog)) = catalog /\
  (size (tokens ∩ catalog) + size (catalog ∖ (tokens ∩ catalog)) = size catalog)%nat.
Proof.
  assert (Hdisj : tokens ∩ catalog ## catalog ∖ (tokens ∩ catalog)).
  { apply elem_of_disjoint. intros x H1 H2.
    apply elem_of_difference in H2. tauto. }
  assert (Hunion : tokens ∩ catalog ∪ catalog ∖ (tokens ∩ catalog) = catalog).
  { apply set_eq. intros x.
    rewrite elem_of_union, elem_of_difference, elem_of_intersection.
    destruct (decide (x ∈ tokens)); tauto. }
  split; [|split].
  - apply disjoint_intersection_L. exact Hdisj.
  - exact Hunion.
  - rewrite <- size_union by exact Hdisj. rewrite Hunion. reflexivity.
Qed.

(** C10.  For a role of the catalog, the matched and the missing skills are
    disjoint, their union is the skill set of the role, and their sizes add
    up to its size. *)
Theorem matched_missing_partition (resume_text job_role : string) (catalog : gset string) :
  predefined_skills !! job_role = Some catalog ->
  let '(matched_skills, missing_skills, _) := match_skills resume_text job_role in
  matched_skills ∩ missing_skills = ∅ /\
  matched_skills ∪ missing_skills = catalog /\
  (size matched_skills + size missing_skills = size catalog)%nat.
Proof.
  intros Hrole. rewrite match_skills_unfold, Hrole. cbn [default from_option id].
  unfold spec_match_skills. cbv beta iota zeta.
  apply partition_by_intersection.
Qed.

(** C7.  For a role of the catalog: when the tagged tokens are exactly the
    skill set of the role the score is 100.0 and no skill is missing; when
    they share no element with it the score is 0.0 and no skill is matched. *)
Theorem skill_score_extremes (resume_text job_role : string) (catalog : gset string) :
  predefined_skills !! job_role = Some catalog ->
  let '(matched_skills, missing_skills, match_percentage) :=
    match_skills resume_text job_role in
  (extract_skills_nlp resume_text = catalog ->
   match_percentage = PyFloat float_hundred /\ missing_skills = ∅) /\
  (extract_skills_nlp resume_text ∩ catalog = ∅ ->
   match_percentage = PyFloat float_zero /\ matched_skills = ∅).
Proof.
  intros Hrole. pose proof (catalog_nonempty _ _ Hrole) as Hne.
  rewrite match_skills_unfold, Hrole. cbn [default from_option id]. unfold spec_match_skills.
  cbv beta iota zeta. split.
  - intros ->. rewrite intersection_idemp_L, difference_diag_L.
    split; [apply spec_percentage_all; assumption | reflexivity].
  - intros ->. split; [apply spec_percentage_none; assumption | reflexivity].
Qed.

End Skills.

(** ** Runs that keep their sets in different orders *)

Section Runs.
Context {L : Libs}.

Lemma member_true (x : string) (s : list string) :
  AppRun.member x s = true <-> x ∈ s.
Proof.
  unfold AppRun.member. rewrite existsb_exists. split.
  - intros (y & Hin & Heq). apply String.eqb_eq in Heq. subst y.
    apply list_elem_of_In. exact Hin.
  - intros Hin. exists x. split; [apply list_elem_of_In; exact Hin|].
    apply String.eqb_refl.
Qed.

Lemma member_false (x : string) (s : list string) :
  AppRun.member x s = false <-> x ∉ s.
Proof.
  rewrite <- member_true. destruct (AppRun.member x s); split; congruence.
Qed.

(** The catalog of [App] holds the sets of the literal. *)
Lemma predefined_skills_of_source (job_role : string) :
  App.predefined_skills !! job_role =
  list_to_set <$> AppRun.dict_get job_role AppRun.predefined_skills_source.
Proof.
  unfold AppRun.predefined_skills_source, App.predefined_skills.
  cbn [AppRun.dict_get].
  repeat
    (match goal with
     | |- context [String.eqb job_role ?k] =>
         destruct (String.eqb_spec job_role k) as [-> | ?];
         [vm_compute; reflexivity | rewrite lookup_insert_ne by congruence]
     end).
  rewrite lookup_empty. reflexivity.
Qed.

Lemma list_to_set_empty_iff (l : list string) :
  (list_to_set l : gset string) = ∅ <-> l = [].
Proof.
  split; [|intros ->; reflexivity].
  destruct l as [| x l]; [reflexivity|].
  intros E. exfalso. apply (not_elem_of_empty (C := gset string) x).
  rewrite <- E. apply elem_of_list_to_set. left.
Qed.

(** Whatever orders the run gives to its sets, the lists that the Skill
    Matcher returns hold the sets of [App.match_skills], each skill once,
    with the same score. *)
Lemma run_match_skills_sets (R : Run) (resume_text job_role : string) :
  run_ok R ->
  let '(matched_skills, missing_skills, match_percentage) :=
    AppRun.match_skills R resume_text job_role in
  NoDup matched_skills /\ NoDup missing_skills /\
  (list_to_set matched_skills, list_to_set missing_skills, match_percentage)
  = App.match_skills resume_text job_role.
Proof.
  intros (Hcomp & Hlit & Hint & Hdiff).
  unfold AppRun.match_skills, App.match_skills.
  set (extracted := AppRun.extract_skills_nlp R resume_text).
  set (job := match AppRun.dict_get job_role AppRun.predefined_skills_source with
              | Some skills => set_literal R skills
              | None => []
              end).
  set (matched := set_intersection R
                    (filter (fun x => AppRun.member x job = true) extracted)).
  set (missing := set_difference R
                    (filter (fun x => AppRun.member x matched = false) job)).
  assert (Hextracted : (list_to_set extracted : gset string)
                       = App.extract_skills_nlp resume_text).
  { apply set_eq. intros x. unfold extracted, AppRun.extract_skills_nlp,
      App.extract_skills_nlp.
    rewrite !elem_of_list_to_set. apply (Hcomp _). }
  assert (Hjob : NoDup job /\
                 (list_to_set job : gset string)
                 = default ∅ (App.predefined_skills !! job_role)).
  { rewrite predefined_skills_of_source. unfold job.
    destruct (AppRun.dict_get job_role AppRun.predefined_skills_source)
      as [skills |]; cbn [fmap option_fmap option_map default from_option id].
    - split; [apply (Hlit skills)|].
      apply set_eq. intros x. rewrite !elem_of_list_to_set. apply (Hlit _).
    - split; [constructor | reflexivity]. }
  destruct Hjob as [Hjob_nodup Hjob].
  assert (Hmatched : (list_to_set matched : gset string)
                     = list_to_set extracted ∩ list_to_set job).
  { apply set_eq. intros x. unfold matched.
    rewrite elem_of_intersection, !elem_of_list_to_set.
    rewrite (proj2 (Hint _) x), list_elem_of_filter, member_true. tauto. }
  assert (Hmissing : (list_to_set missing : gset string)
                     = list_to_set job ∖ list_to_set matched).
  { apply set_eq. intros x. unfold missing.
    rewrite elem_of_difference, !elem_of_list_to_set.
    rewrite (proj2 (Hdiff _) x), list_elem_of_filter, member_false. tauto. }
  split; [apply (Hint _)|]. split; [apply (Hdiff _)|].
  rewrite Hmissing, Hmatched, Hextracted, Hjob.
  f_equal.
  assert (Hlen_job : App.len (default ∅ (App.predefined_skills !! job_role))
                     = Z.of_nat (length job)).
  { unfold App.len. rewrite <- Hjob, size_list_to_set by assumption. reflexivity. }
  assert (Hlen_matched :
            App.len (App.extract_skills_nlp resume_text
                     ∩ default ∅ (App.predefined_skills !! job_role))
            = Z.of_nat (length matched)).
  { unfold App.len. rewrite <- Hextracted, <- Hjob, <- Hmatched.
    rewrite size_list_to_set by (apply (Hint _)). reflexivity. }
  rewrite Hlen_job, Hlen_matched.
  assert (Hne : App.nonempty_set (default ∅ (App.predefined_skills !! job_role))
                = App.nonempty_list job).
  { unfold App.nonempty_set. rewrite <- Hjob, size_list_to_set by assumption.
    destruct job; reflexivity. }
  rewrite Hne. reflexivity.
Qed.

End Runs.

(** C6.  Take two runs of the Skill Matcher on the same resume text and role,
    with taggers that return the same tokens on that text, each run keeping
    its sets in orders of its own.  The matched skills of the two runs are
    the same set, and so are the missing skills: each is a list without
    repetition that is a rearrangement of the other; the scores are equal;
    and these sets are those of [App.match_skills]. *)
Theorem match_skills_order_insensitive (L1 L2 : Libs) (R1 R2 : Run)
    (resume_text job_role : string) :
  run_ok R1 -> run_ok R2 ->
  @nlp L1 resume_text = @nlp L2 resume_text ->
  let '(matched_1, missing_1, score_1) :=
    @AppRun.match_skills L1 R1 resume_text job_role in
  let '(matched_2, missing_2, score_2) :=
    @AppRun.match_skills L2 R2 resume_text job_role in
  NoDup matched_1 /\ NoDup matched_2 /\ matched_1 ≡ₚ matched_2 /\
  NoDup missing_1 /\ NoDup missing_2 /\ missing_1 ≡ₚ missing_2 /\
  score_1 = score_2 /\
  (list_to_set matched_1, list_to_set missing_1, score_1)
  = @App.match_skills L1 resume_text job_role.
Proof.
  intros Hok1 Hok2 Hnlp.
  pose proof (@run_match_skills_sets L1 R1 resume_text job_role Hok1) as H1.
  pose proof (@run_match_skills_sets L2 R2 resume_text job_role Hok2) as H2.
  assert (Hsame : @App.match_skills L1 resume_text job_role
                  = @App.match_skills L2 resume_text job_role).
  { unfold App.match_skills, App.extract_skills_nlp. rewrite Hnlp. reflexivity. }
  destruct (@AppRun.match_skills L1 R1 resume_text job_role)
    as [[matched_1 missing_1] score_1].
  destruct (@AppRun.match_skills L2 R2 resume_text job_role)
    as [[matched_2 missing_2] score_2].
  destruct H1 as (Hm1 & Hs1 & E1). destruct H2 as (Hm2 & Hs2 & E2).
  rewrite <- Hsame, <- E1 in E2. injection E2 as Em Es Ep.
  repeat split; try assumption.
  - apply NoDup_Permutation; try assumption. intros x.
    rewrite <- !(elem_of_list_to_set (C := gset string)), Em. reflexivity.
  - apply NoDup_Permutation; try assumption. intros x.
    rewrite <- !(elem_of_list_to_set (C := gset string)), Es. reflexivity.
  - congruence.
Qed.

Section RunSamples.
Import Sample.

Lemma keeps_elements_remove_dups : keeps_elements remove_dups.
Proof.
  intros l. split; [apply NoDup_remove_dups | intros x; apply elem_of_remove_dups].
Qed.

Lemma keeps_elements_rev_remove_dups :
  keeps_elements (fun l => rev (remove_dups l)).
Proof.
  intros l. split.
  - apply NoDup_ListNoDup, NoDup_rev, NoDup_ListNoDup, NoDup_remove_dups.
  - intros x. rewrite list_elem_of_In, <- in_rev, <- list_elem_of_In.
    apply elem_of_remove_dups.
Qed.

Lemma insertion_run_ok : run_ok insertion_run.
Proof. repeat split; apply keeps_elements_remove_dups. Qed.

Lemma reversed_run_ok : run_ok reversed_run.
Proof.
  repeat split;
    first [apply keeps_elements_rev_remove_dups | apply keeps_elements_remove_dups].
Qed.

Lemma match_skills_order_insensitive_witness :
  run_ok insertion_run /\ run_ok reversed_run /\
  @nlp word_libs "Figma" = @nlp line_libs "Figma" /\
  snd (fst (@AppRun.match_skills word_libs insertion_run "Figma" "UI/UX Designer"))
  <> snd (fst (@AppRun.match_skills line_libs reversed_run "Figma" "UI/UX Designer")) /\
  let '(matched_1, missing_1, score_1) :=
    @AppRun.match_skills word_libs insertion_run "Figma" "UI/UX Designer" in
  let '(matched_2, missing_2, score_2) :=
    @AppRun.match_skills line_libs reversed_run "Figma" "UI/UX Designer" in
  NoDup matched_1 /\ NoDup matched_2 /\ matched_1 ≡ₚ matched_2 /\
  NoDup missing_1 /\ NoDup missing_2 /\ missing_1 ≡ₚ missing_2 /\
  score_1 = score_2 /\
  (list_to_set matched_1, list_to_set missing_1, score_1)
  = @App.match_skills word_libs "Figma" "UI/UX Designer".
Proof.
  split; [exact insertion_run_ok|]. split; [exact reversed_run_ok|].
  split; [reflexivity|]. split; [vm_compute; discriminate|].
  apply (match_skills_order_insensitive word_libs line_libs
           insertion_run reversed_run "Figma" "UI/UX Designer"
           insertion_run_ok reversed_run_ok eq_refl).
Defined.

End RunSamples.

(** ** The words of a text *)

Section Words.
Import PyStr.

Lemma app_nil_r_s (s : string) : s +:+ "" = s.
Proof.
  induction s as [| c s IH]; [reflexivity|].
  change (String c (s +:+ "") = String c s). rewrite IH. reflexivity.
Qed.

Lemma app_assoc_s (a b c : string) : (a +:+ b) +:+ c = a +:+ (b +:+ c).
Proof.
  induction a as [| x a IH]; [reflexivity|].
  change (String x ((a +:+ b) +:+ c) = String x (a +:+ (b +:+ c))).
  rewrite IH. reflexivity.
Qed.

Lemma app_cons_s (c : ascii) (a b : string) :
  String c a +:+ b = String c (a +:+ b).
Proof. reflexivity. Qed.

Lemma app_eq_nil_s (a b : string) : a +:+ b = "" -> a = "" /\ b = "".
Proof. destruct a; [cbn; auto | discriminate]. Qed.

Lemma NoSpace_app (a b : string) : NoSpace (a +:+ b) <-> NoSpace a /\ NoSpace b.
Proof.
  induction a as [| c a IH]; [cbn; tauto|].
  rewrite app_cons_s. cbn [NoSpace]. rewrite IH. tauto.
Qed.

Lemma space_last_cons (c : ascii) (s : string) :
  space_last (String c s) <-> (s = "" /\ isspace c = true) \/ space_last s.
Proof.
  unfold space_last. split.
  - intros (front & x & H & Hx). destruct front as [| y front].
    + cbn in H. injection H as -> <-. left. auto.
    + rewrite app_cons_s in H. injection H as -> ->. right. eauto.
  - intros [[-> Hc] | (front & x & -> & Hx)].
    + exists "", c. auto.
    + exists (String c front), x. auto.
Qed.

Lemma space_last_nil : ~ space_last "".
Proof. intros (front & c & H & _). destruct front; discriminate. Qed.

Lemma split_from_word (s cur w : string) :
  NoSpace cur -> (In w (split_from cur s) <-> word_from cur s w).
Proof.
  revert cur. induction s as [| c s IH]; intros cur Hcur.
  - cbn [split_from]. unfold word_from. split.
    + intros H. left. exists "", "".
      destruct (String.eqb_spec cur ""); [destruct H|].
      destruct H as [<- | []]. cbn. repeat split; auto.
      symmetry. apply app_nil_r_s.
    + intros [(run & post & H & _ & _ & -> & Hne) | (_ & _ & pre & post & H & Hl & _)].
      * symmetry in H. apply app_eq_nil_s in H. destruct H as [-> ->].
        rewrite app_nil_r_s in *.
        destruct (String.eqb_spec cur ""); [contradiction | left; reflexivity].
      * symmetry in H. apply app_eq_nil_s in H. destruct H as [-> _].
        destruct (space_last_nil Hl).
  - cbn [split_from]. destruct (isspace c) eqn:Ec.
    + assert (Hrest : In w (split_from "" s) <->
                (w <> "" /\ NoSpace w /\
                 exists pre post, String c s = pre +:+ w +:+ post /\
                                  space_last pre /\ space_first post)).
      { rewrite (IH "" I). unfold word_from. split.
        - intros [(run & post & -> & Hrun & Hpost & -> & Hne)
                 | (Hne & Hw & pre & post & -> & Hl & Hpost)].
          + cbn [String.append] in Hne |- *. split; [assumption|]. split; [assumption|].
            exists (String c ""), post. split; [reflexivity|]. split; [|assumption].
            exists "", c. auto.
          + split; [assumption|]. split; [assumption|].
            exists (String c pre), post. split; [reflexivity|]. split; [|assumption].
            apply space_last_cons. auto.
        - intros (Hne & Hw & pre & post & H & Hl & Hpost).
          destruct pre as [| x pre]; [destruct (space_last_nil Hl)|].
          rewrite app_cons_s in H. injection H as <- ->.
          apply space_last_cons in Hl. destruct Hl as [[-> _] | Hl].
          + left. exists w, post. cbn [String.append]. auto.
          + right. split; [assumption|]. split; [assumption|]. eauto. }
      assert (Hfirst : (exists run post, String c s = run +:+ post /\ NoSpace run /\
                          space_first post /\ w = cur +:+ run /\ w <> "") <->
                       (w = cur /\ cur <> "")).
      { split.
        - intros (run & post & H & Hrun & _ & -> & Hne).
          destruct run as [| x run].
          + rewrite app_nil_r_s in *. auto.
          + rewrite app_cons_s in H. injection H as <- _.
            cbn in Hrun. destruct Hrun as [Hx _]. congruence.
        - intros [-> Hne]. exists "", (String c s).
          rewrite app_nil_r_s. cbn. auto. }
      unfold word_from at 1. rewrite Hfirst, <- Hrest.
      destruct (String.eqb_spec cur "") as [-> | Hne]; cbn [In].
      * split; [auto | intros [[_ H] | H]; [congruence | assumption]].
      * split; [intros [<- | H]; auto | intros [[-> _] | H]; auto].
    + assert (Hcur' : NoSpace (cur +:+ String c "")).
      { apply NoSpace_app. cbn. auto. }
      rewrite (IH _ Hcur'). unfold word_from. split.
      * intros [(run & post & -> & Hrun & Hpost & -> & Hne)
               | (Hne & Hw & pre & post & -> & Hl & Hpost)].
        -- left. exists (String c run), post. rewrite app_assoc_s in *.
           cbn [String.append NoSpace] in *. auto.
        -- right. split; [assumption|]. split; [assumption|].
           exists (String c pre), post. split; [reflexivity|]. split; [|assumption].
           apply space_last_cons. auto.
      * intros [(run & post & H & Hrun & Hpost & -> & Hne)
               | (Hne & Hw & pre & post & H & Hl & Hpost)].
        -- destruct run as [| x run].
           ++ change (String c s = post) in H. subst post.
              cbn in Hpost. congruence.
           ++ rewrite app_cons_s in H. injection H as <- ->.
              left. exists run, post. rewrite app_assoc_s in *.
              cbn [String.append NoSpace] in *. tauto.
        -- destruct pre as [| x pre]; [destruct (space_last_nil Hl)|].
           rewrite app_cons_s in H. injection H as <- ->.
           apply space_last_cons in Hl. destruct Hl as [[_ Hx] | Hl]; [congruence|].
           right. split; [assumption|]. split; [assumption|]. eauto.
Qed.

Lemma split_word (s w : string) : In w (split s) <-> is_word w s.
Proof.
  unfold split. rewrite (split_from_word s "" w I). unfold word_from, is_word.
  split.
  - intros [(run & post & -> & Hrun & Hpost & -> & Hne)
           | (Hne & Hw & pre & post & -> & Hl & Hpost)].
    + cbn [String.append] in *. split; [assumption|]. split; [assumption|].
      exists "", post. auto.
    + split; [assumption|]. split; [assumption|]. exists pre, post. auto.
  - intros (Hne & Hw & pre & post & -> & [-> | Hl] & Hpost).
    + left. exists w, post. cbn [String.append]. auto.
    + right. split; [assumption|]. split; [assumption|]. eauto.
Qed.

End Words.

(** ** The job-description matcher *)

Section JobMatch.
Import App.

Lemma job_match_percentage_unfold (resume_text job_description : string) :
  job_match_percentage resume_text job_description =
  spec_job_match resume_text job_description.
Proof.
  unfold job_match_percentage, spec_job_match, word_set.
  apply percentage_spec.
Qed.

(** C2.  The words of a text are the maximal runs of non-space characters of
    its lower-cased form; the Job-Description Matcher returns the percentage
    of the job-description words that are also resume words, and 0 when the
    job description has no word. *)
Theorem job_match_percentage_spec (resume_text job_description : string) :
  (forall txt w, w ∈ word_set txt <-> is_word w (PyStr.lower txt)) /\
  job_match_percentage resume_text job_description =
    spec_percentage (word_set resume_text ∩ word_set job_description)
                    (word_set job_description) /\
  (word_set job_description = ∅ ->
   job_match_percentage resume_text job_description = PyInt 0).
Proof.
  split; [|split].
  - intros txt w. unfold word_set.
    rewrite elem_of_list_to_set, list_elem_of_In. apply split_word.
  - apply job_match_percentage_unfold.
  - intros E. rewrite job_match_percentage_unfold. unfold spec_job_match.
    rewrite E. reflexivity.
Qed.

(** C8, amended.  When the job description has at least one word and each of
    its words is a word of the resume, the job match score is 100.0. *)
Theorem job_match_full (resume_text job_description : string) :
  word_set job_description <> ∅ ->
  word_set job_description ⊆ word_set resume_text ->
  job_match_percentage resume_text job_description = PyFloat float_hundred.
Proof.
  intros Hne Hsub. rewrite job_match_percentage_unfold. unfold spec_job_match.
  replace (word_set resume_text ∩ word_set job_description)
    with (word_set job_description).
  - apply spec_percentage_all. assumption.
  - apply set_eq. intros w. rewrite elem_of_intersection.
    split; [intros H; split; [apply Hsub|]; assumption | tauto].
Qed.

(** C8 as stated fails for a job description without words, such as a
    single space, which the guard of the loop lets through: its zero words
    are all words of the resume, and the score is the integer 0, not 100. *)
Lemma job_match_empty_description :
  PyStr.truthy " " = true /\
  size (word_set " ") = 0%nat /\
  word_set " " ⊆ word_set "python sql" /\
  job_match_percentage "python sql" " " = PyInt 0 /\
  PyNum.eqb (job_match_percentage "python sql" " ") (PyInt 100) = false /\
  ~ (forall resume_text job_description,
       word_set job_description ⊆ word_set resume_text ->
       PyNum.eqb (job_match_percentage resume_text job_description)
                 (PyInt 100) = true).
Proof.
  assert (Hsub : word_set " " ⊆ word_set "python sql").
  { intros w Hw. exfalso. revert Hw. apply not_elem_of_empty. }
  split; [reflexivity|]. split; [reflexivity|]. split; [exact Hsub|].
  split; [reflexivity|]. split; [reflexivity|].
  intros Hclaim. specialize (Hclaim "python sql" " " Hsub). discriminate.
Qed.

(** C4.  The skill match percentage and the job match percentage are both
    between 0 and 100, bounds included, for every resume text, role and job
    description: as the comparisons of Python evaluate, and as values. *)
Theorem percentages_in_range `{Libs} (resume_text job_role job_description : string) :
  (in_percent_range (snd (match_skills resume_text job_role)) = true /\
   is_percentage (snd (match_skills resume_text job_role))) /\
  (in_percent_range (job_match_percentage resume_text job_description) = true /\
   is_percentage (job_match_percentage resume_text job_description)).
Proof.
  split.
  - rewrite match_skills_unfold. unfold spec_match_skills. cbn [snd].
    split; [apply spec_percentage_in_range | apply spec_percentage_value];
      apply intersection_subseteq_r.
  - rewrite job_match_percentage_unfold. unfold spec_job_match.
    split; [apply spec_percentage_in_range | apply spec_percentage_value];
      apply intersection_subseteq_r.
Qed.

End JobMatch.

(** ** Substrings *)

Section Strings.
Import PyStr.

Lemma startswith_spec (p s : string) :
  startswith p s = true <-> exists post, s = p +:+ post.
Proof.
  revert s. induction p as [| a p IH]; intros s; cbn.
  - split; [intros _; exists s; reflexivity | reflexivity].
  - destruct s as [| b s].
    + split; [discriminate | intros [post H]; discriminate].
    + rewrite andb_true_iff, Ascii.eqb_eq, IH. split.
      * intros [-> [post ->]]. exists post. reflexivity.
      * intros [post H]. injection H as -> ->. split; [reflexivity | eauto].
Qed.

Lemma contains_spec (needle hay : string) :
  contains needle hay = true <-> Substring needle hay.
Proof.
  unfold Substring. induction hay as [| c hay IH]; cbn [contains].
  - rewrite orb_false_r, startswith_spec. split.
    + intros [post H]. exists "", post. exact H.
    + intros (pre & post & H). destruct pre; [|discriminate].
      exists post. exact H.
  - rewrite orb_true_iff, startswith_spec, IH. split.
    + intros [[post H] | (pre & post & H)].
      * exists "", post. exact H.
      * exists (String c pre), post. cbn. rewrite H. reflexivity.
    + intros (pre & post & H). destruct pre as [| x pre].
      * left. exists post. exact H.
      * right. cbn in H. injection H as _ H. exists pre, post. exact H.
Qed.

End Strings.

(** ** The format checker *)

Section Format.
Import App PyStr.

Lemma existsb_contains_false (kws : list string) (hay : string) :
  existsb (fun keyword => contains keyword hay) kws = false <->
  forall kw, In kw kws -> ~ Substring kw hay.
Proof.
  induction kws as [| k kws IH]; cbn.
  - split; [intros _ kw [] | reflexivity].
  - rewrite orb_false_iff, IH. split.
    + intros [Hk Hr] kw [<- | Hin]; [|auto].
      rewrite <- contains_spec. congruence.
    + intros H. split.
      * destruct (contains k hay) eqn:E; [|reflexivity].
        exfalso. apply (H k); [auto|]. apply contains_spec. exact E.
      * intros kw Hin. apply H. auto.
Qed.

(** The names that a filter keeps from an association list without
    repeated names. *)
Lemma in_map_fst_filter {A : Type} (P : string * A -> bool)
    (l : list (string * A)) (k : string) (v : A) :
  NoDup (map fst l) -> In (k, v) l ->
  (In k (map fst (filter (fun kv => P kv = true) l)) <-> P (k, v) = true).
Proof.
  intros Hnd Hin. rewrite in_map_iff. split.
  - intros ([k' v'] & Hk & Hf). cbn in Hk. subst k'.
    apply list_elem_of_In, list_elem_of_filter in Hf. destruct Hf as [HP Hin'].
    apply list_elem_of_In in Hin'.
    assert (v' = v); [|subst; assumption].
    clear HP. induction l as [| [k0 v0] l IH]; [destruct Hin|].
    cbn in Hnd. apply NoDup_cons in Hnd. destruct Hnd as [Hnot Hnd].
    destruct Hin as [E | Hin], Hin' as [E' | Hin'].
    + congruence.
    + exfalso. apply Hnot. injection E as -> _.
      apply list_elem_of_In, in_map_iff. exists (k, v'). auto.
    + exfalso. apply Hnot. injection E' as -> _.
      apply list_elem_of_In, in_map_iff. exists (k, v). auto.
    + auto.
  - intros HP. exists (k, v). split; [reflexivity|].
    apply list_elem_of_In, list_elem_of_filter. split; [assumption|].
    apply list_elem_of_In. assumption.
Qed.

Lemma sections_NoDup : NoDup (map fst sections).
Proof.
  unfold sections. cbn [map fst].
  repeat (apply NoDup_cons_2;
          [rewrite ?elem_of_cons, elem_of_nil; intuition discriminate |]).
  apply NoDup_nil_2.
Qed.

(** C3.  A section is reported missing exactly when none of its keywords
    occurs in the lower-cased resume text; the missing sections come in the
    order of the catalog; a text with no keyword of any section yields all
    five names in that order. *)
Theorem check_resume_format_spec (resume_text : string) :
  (forall section keywords, In (section, keywords) sections ->
     (In section (check_resume_format resume_text) <->
      forall keyword, In keyword keywords ->
                      ~ Substring keyword (lower resume_text))) /\
  sublist (check_resume_format resume_text) (map fst sections) /\
  ((forall section keywords keyword,
       In (section, keywords) sections -> In keyword keywords ->
       ~ Substring keyword (lower resume_text)) ->
   check_resume_format resume_text =
     ["Education"; "Experience"; "Skills"; "Certifications"; "Projects"]).
Proof.
  split; [|split].
  - intros section keywords Hin. unfold check_resume_format.
    rewrite (in_map_fst_filter
               (fun sk => negb (existsb (fun keyword =>
                                           contains keyword (lower resume_text))
                                        (snd sk)))
               sections section keywords sections_NoDup Hin).
    cbn [snd]. rewrite negb_true_iff. apply existsb_contains_false.
  - unfold check_resume_format.
    apply (fmap_sublist fst (filter _ sections) sections), sublist_filter.
  - intros Hnone. unfold check_resume_format.
    assert (Hall : forall sk, In sk sections ->
              negb (existsb (fun keyword => contains keyword (lower resume_text))
                            (snd sk)) = true).
    { intros [section keywords] Hin. cbn [snd]. rewrite negb_true_iff.
      apply existsb_contains_false. intros kw Hkw. eapply Hnone; eassumption. }
    revert Hall. generalize (lower resume_text). intros hay Hall.
    unfold sections in *.
    repeat (rewrite filter_cons_True; [|apply Hall; cbn; tauto]).
    reflexivity.
Qed.

End Format.

(** ** The text extractor and the loop over the uploads *)

Section Shell.
Import App PyStr.
Context {L : Libs}.

Lemma extract_text_unsupported (f : UploadedFile) :
  file_extension f <> ".pdf" -> file_extension f <> ".docx" ->
  extract_text f = Ok None.
Proof.
  intros Hpdf Hdocx. unfold extract_text. fold (file_extension f).
  apply String.eqb_neq in Hpdf, Hdocx. rewrite Hpdf, Hdocx. reflexivity.
Qed.

Lemma analyse_file_no_text (job_description job_role : string)
    (f : UploadedFile) (log : list st_call) :
  extract_text f = Ok None ->
  analyse_file job_description job_role f log = (Ok tt, log).
Proof.
  intros H. unfold analyse_file, ui_bind, lift. rewrite H. reflexivity.
Qed.

Lemma for_each_skip (job_description job_role : string)
    (before after : list UploadedFile) (f : UploadedFile) (log : list st_call) :
  (forall log', analyse_file job_description job_role f log' = (Ok tt, log')) ->
  for_each job_description job_role (before ++ f :: after) log =
  for_each job_description job_role (before ++ after) log.
Proof.
  intros Hskip. revert log.
  induction before as [| g before IH]; intros log; cbn [app for_each].
  - unfold ui_bind. rewrite Hskip. reflexivity.
  - unfold ui_bind.
    destruct (analyse_file job_description job_role g log) as [[[] | e] log'];
      [apply IH | reflexivity].
Qed.

Lemma for_each_nil_or (job_description job_role : string)
    (files : list UploadedFile) (log : list st_call) :
  (if nonempty_list files then for_each job_description job_role files
   else ui_ret tt) log = for_each job_description job_role files log.
Proof. destruct files; reflexivity. Qed.

(** C5.  For a file whose extension is neither .pdf nor .docx the Text
    Extractor returns no text without raising, the loop body for that file
    displays nothing and raises nothing, and a run with the file among the
    uploads ends as the run without it. *)
Theorem unsupported_extension_skipped (f : UploadedFile) :
  file_extension f <> ".pdf" -> file_extension f <> ".docx" ->
  extract_text f = Ok None /\
  (forall job_description job_role log,
     analyse_file job_description job_role f log = (Ok tt, log)) /\
  (forall before after job_description job_role log,
     main (before ++ f :: after) job_description job_role log =
     main (before ++ after) job_description job_role log).
Proof.
  intros Hpdf Hdocx.
  pose proof (extract_text_unsupported f Hpdf Hdocx) as Hnone.
  split; [assumption|]. split.
  - intros. apply analyse_file_no_text. assumption.
  - intros before after job_description job_role log. unfold main.
    destruct (truthy job_description).
    + rewrite !andb_true_r, !for_each_nil_or.
      apply for_each_skip. intros. apply analyse_file_no_text. assumption.
    + rewrite !andb_false_r. reflexivity.
Qed.

End Shell.

(** ** The report *)

Section Report.
Import App PyStr.
Context {L : Libs}.

Lemma digit_is_digit (d : Z) : 0 <= d <= 9 -> is_digit (digit d).
Proof.
  intros Hd. unfold is_digit, digit, code.
  rewrite nat_ascii_embedding by lia. lia.
Qed.

Lemma hundredths_two_decimals (sign : string) (h : Z) :
  two_decimals (sign +:+ hundredths h).
Proof.
  unfold two_decimals, hundredths.
  exists (sign +:+ pretty (h / 100)), (digit (h mod 100 / 10)), (digit (h mod 10)).
  split; [|split].
  - rewrite !app_assoc_s. reflexivity.
  - apply digit_is_digit.
    pose proof (Z.mod_pos_bound h 100 ltac:(lia)).
    assert ((h mod 100) / 10 < 10) by (apply Z.div_lt_upper_bound; lia).
    split; [apply Z.div_pos; lia | lia].
  - apply digit_is_digit. pose proof (Z.mod_pos_bound h 10 ltac:(lia)). lia.
Qed.

Lemma format_2f_two_decimals (x : pynum) :
  finite_number x -> two_decimals (format_2f x).
Proof.
  destruct x as [z | [s | s | | s m e]]; cbn [finite_number format_2f];
    intros Hfin; try contradiction; try apply hundredths_two_decimals.
  exists ((if s then "-" else "") +:+ "0"), "0"%char, "0"%char.
  split; [destruct s; reflexivity|].
  unfold is_digit. change (code "0") with 48. lia.
Qed.

Lemma joined_or_none_set (s : gset string) :
  (s = ∅ -> joined_or_none (elements s) = "None") /\
  (s <> ∅ -> joined_or_none (elements s) = join ", " (elements s)).
Proof.
  split.
  - intros ->. rewrite elements_empty. reflexivity.
  - intros Hne. unfold joined_or_none.
    destruct (elements s) eqn:E; [|reflexivity].
    exfalso. apply Hne. apply elements_empty_inv in E.
    apply leibniz_equiv. exact E.
Qed.

Lemma joined_or_none_list (l : list string) :
  (l = [] -> joined_or_none l = "None") /\
  (l <> [] -> joined_or_none l = join ", " l).
Proof.
  split; [intros ->; reflexivity|].
  intros Hne. destruct l; [contradiction | reflexivity].
Qed.

End Report.

(** ** The statements at sample inputs *)

Section Witnesses.
Import App Sample.

Lemma match_skills_spec_witness :
  predefined_skills !! "Marketing" = Some marketing_skills /\
  @match_skills Sample.word_libs "SEO and Branding for a bakery" "Marketing" =
    ({["SEO"; "Branding"]},
     {["Google Ads"; "Content Writing"; "Social Media"; "Google Analytics";
       "Copywriting"; "Email Marketing"]},
     PyFloat (float_of_int 25)).
Proof.
  split; [reflexivity|].
  destruct (@match_skills_spec Sample.word_libs "SEO and Branding for a bakery"
              "Marketing" marketing_skills eq_refl) as (_ & -> & _).
  vm_compute. reflexivity.
Defined.

Lemma matched_missing_partition_witness :
  predefined_skills !! "Marketing" = Some marketing_skills /\
  let '(matched_skills, missing_skills, _) :=
    @match_skills Sample.word_libs "SEO and Branding for a bakery" "Marketing" in
  matched_skills ∩ missing_skills = ∅ /\
  matched_skills ∪ missing_skills = marketing_skills /\
  (size matched_skills + size missing_skills = size marketing_skills)%nat.
Proof.
  split; [reflexivity|].
  apply (@matched_missing_partition Sample.word_libs
           "SEO and Branding for a bakery" "Marketing" marketing_skills).
  reflexivity.
Defined.

Lemma skill_score_extremes_witness :
  predefined_skills !! "Cybersecurity Analyst" = Some security_skills /\
  @extract_skills_nlp Sample.line_libs security_resume = security_skills /\
  @extract_skills_nlp Sample.line_libs "Baking" ∩ security_skills = ∅ /\
  @match_skills Sample.line_libs security_resume "Cybersecurity Analyst" =
    (security_skills, ∅, PyFloat float_hundred) /\
  @match_skills Sample.line_libs "Baking" "Cybersecurity Analyst" =
    (∅, security_skills, PyFloat float_zero).
Proof.
  assert (Hrole : predefined_skills !! "Cybersecurity Analyst" = Some security_skills)
    by reflexivity.
  assert (Hall : @extract_skills_nlp Sample.line_libs security_resume = security_skills)
    by (vm_compute; reflexivity).
  assert (Hnone : @extract_skills_nlp Sample.line_libs "Baking" ∩ security_skills = ∅)
    by (vm_compute; reflexivity).
  split; [exact Hrole|]. split; [exact Hall|]. split; [exact Hnone|].
  pose proof (@skill_score_extremes Sample.line_libs security_resume
                "Cybersecurity Analyst" security_skills Hrole) as H1.
  pose proof (@skill_score_extremes Sample.line_libs "Baking"
                "Cybersecurity Analyst" security_skills Hrole) as H2.
  split.
  - destruct (@match_skills Sample.line_libs security_resume "Cybersecurity Analyst")
      as [[matched missing] score] eqn:E.
    destruct H1 as [H1 _]. destruct (H1 Hall) as [-> ->].
    apply (f_equal (fun t => fst (fst t))) in E. cbn [fst] in E. rewrite <- E.
    vm_compute. reflexivity.
  - destruct (@match_skills Sample.line_libs "Baking" "Cybersecurity Analyst")
      as [[matched missing] score] eqn:E.
    destruct H2 as [_ H2]. destruct (H2 Hnone) as [-> ->].
    apply (f_equal (fun t => snd (fst t))) in E. cbn [fst snd] in E. rewrite <- E.
    vm_compute. reflexivity.
Defined.

Lemma job_match_full_witness :
  word_set "SQL  Python" <> ∅ /\
  word_set "SQL  Python" ⊆ word_set "python, sql and Python SQL" /\
  job_match_percentage "python, sql and Python SQL" "SQL  Python"
    = PyFloat float_hundred.
Proof.
  assert (Hne : word_set "SQL  Python" <> ∅).
  { intros E. apply (f_equal size) in E. vm_compute in E. discriminate. }
  assert (Hsub : word_set "SQL  Python" ⊆ word_set "python, sql and Python SQL").
  { apply (bool_decide_unpack _). vm_compute. exact I. }
  split; [exact Hne|]. split; [exact Hsub|].
  apply job_match_full; assumption.
Defined.

Lemma unsupported_extension_skipped_witness :
  file_extension notes_txt <> ".pdf" /\ file_extension notes_txt <> ".docx" /\
  @extract_text Sample.word_libs notes_txt = Ok None /\
  @main Sample.word_libs [notes_txt] "python developer" "Software Engineer" []
    = (Ok tt, []) /\
  @main Sample.word_libs [resume_pdf; notes_txt] "python developer"
        "Software Engineer" []
    = @main Sample.word_libs [resume_pdf] "python developer"
        "Software Engineer" [].
Proof.
  assert (H1 : file_extension notes_txt <> ".pdf") by discriminate.
  assert (H2 : file_extension notes_txt <> ".docx") by discriminate.
  destruct (@unsupported_extension_skipped Sample.word_libs notes_txt H1 H2)
    as (He & Ha & Hm).
  split; [exact H1|]. split; [exact H2|]. split; [exact He|]. split.
  - apply (Hm [] []).
  - apply (Hm [resume_pdf] []).
Defined.

End Witnesses.

(** ** File names *)

Section FileNames.
Import App PyStr.

Lemma substring_split (n : nat) (s : string) :
  String.substring 0 n s +:+ String.substring n (String.length s - n) s = s.
Proof.
  revert n. induction s as [| c s IH]; intros n.
  - destruct n; reflexivity.
  - destruct n as [| n].
    + cbn [String.substring String.length Nat.sub].
      change ("" +:+ ?x) with x. f_equal.
      specialize (IH 0%nat). cbn [String.substring] in IH.
      rewrite Nat.sub_0_r in IH.
      destruct (String.length s) eqn:E.
      * destruct s; [reflexivity | discriminate].
      * destruct s as [| d s']; [discriminate|].
        change ("" +:+ ?x) with x in IH. exact IH.
    + cbn [String.substring String.length Nat.sub]. rewrite app_cons_s.
      f_equal. apply IH.
Qed.

Lemma take_drop (i : Z) (p : string) : take i p +:+ drop i p = p.
Proof. unfold take, drop. apply substring_split. Qed.

Lemma splitext_loop_join (n : nat) (p : string) (i d : Z) :
  fst (splitext_loop n p i d) +:+ snd (splitext_loop n p i d) = p.
Proof.
  revert i. induction n as [| n IH]; intros i; cbn [splitext_loop].
  - apply app_nil_r_s.
  - destruct (i <? d); [|apply app_nil_r_s].
    destruct (negb _); [apply take_drop | apply IH].
Qed.

(** [root + ext == path]. *)
Lemma splitext_join (p : string) : fst (splitext p) +:+ snd (splitext p) = p.
Proof.
  unfold splitext. destruct (_ <? _); [apply splitext_loop_join | apply app_nil_r_s].
Qed.


Lemma rfind_from_app (c : ascii) (a b : string) (i last : Z) :
  rfind_from c (a +:+ b) i last =
  rfind_from c b (i + Z.of_nat (String.length a)) (rfind_from c a i last).
Proof.
  revert i last. induction a as [| x a IH]; intros i last.
  - change ("" +:+ b) with b. cbn [String.length rfind_from]. f_equal. lia.
  - rewrite app_cons_s. cbn [rfind_from String.length]. rewrite IH.
    f_equal. lia.
Qed.

Lemma rfind_from_lacks (c : ascii) (s : string) (i last : Z) :
  lacks c s -> rfind_from c s i last = last.
Proof.
  revert i last. induction s as [| x s IH]; intros i last Hl; [reflexivity|].
  cbn [lacks] in Hl. destruct Hl as [Hx Hl]. cbn [rfind_from].
  apply Ascii.eqb_neq in Hx. rewrite Hx. apply IH. exact Hl.
Qed.

Lemma lacks_app (c : ascii) (a b : string) :
  lacks c (a +:+ b) <-> lacks c a /\ lacks c b.
Proof.
  induction a as [| x a IH]; [cbn; tauto|].
  rewrite app_cons_s. cbn [lacks]. rewrite IH. tauto.
Qed.

Lemma length_app_s (a b : string) :
  String.length (a +:+ b) = (String.length a + String.length b)%nat.
Proof.
  induction a as [| x a IH]; [reflexivity|].
  rewrite app_cons_s. cbn [String.length]. rewrite IH. reflexivity.
Qed.

Lemma substring_at (pre tail : string) (c : ascii) :
  String.substring (String.length pre) 1 (pre +:+ String c tail) = String c "".
Proof.
  induction pre as [| x pre IH].
  - cbn. destruct tail; reflexivity.
  - rewrite app_cons_s. cbn [String.length String.substring]. exact IH.
Qed.

Lemma substring_prefix (root rest : string) :
  String.substring 0 (String.length root) (root +:+ rest) = root.
Proof.
  induction root as [| x root IH].
  - cbn. destruct rest; reflexivity.
  - rewrite app_cons_s. cbn [String.length String.substring]. rewrite IH.
    reflexivity.
Qed.

Lemma take_prefix (root rest : string) :
  take (Z.of_nat (String.length root)) (root +:+ rest) = root.
Proof. unfold take. rewrite Nat2Z.id. apply substring_prefix. Qed.

Lemma drop_prefix (root rest : string) :
  drop (Z.of_nat (String.length root)) (root +:+ rest) = rest.
Proof.
  pose proof (take_drop (Z.of_nat (String.length root)) (root +:+ rest)) as H.
  rewrite take_prefix in H.
  revert H. generalize (drop (Z.of_nat (String.length root)) (root +:+ rest)).
  intros d. induction root as [| x root IH]; intros H.
  - exact H.
  - rewrite !app_cons_s in H. injection H as H. apply IH. exact H.
Qed.

(** The loop of [splitext] passes the leading dots of the name and stops at
    its first other character. *)
Lemma splitext_loop_dots (dots pre tail : string) (c : ascii) (n : nat) (d : Z) :
  only "."%char dots -> c <> "."%char ->
  (String.length dots < n)%nat ->
  Z.of_nat (String.length pre + String.length dots) < d ->
  splitext_loop n (pre +:+ dots +:+ String c tail)
                (Z.of_nat (String.length pre)) d =
  (take d (pre +:+ dots +:+ String c tail),
   drop d (pre +:+ dots +:+ String c tail)).
Proof.
  revert pre n. induction dots as [| x dots IH]; intros pre n Hdots Hc Hn Hd.
  - destruct n as [| n]; [cbn in Hn; lia|]. cbn [splitext_loop].
    replace (Z.of_nat (String.length pre) <? d) with true
      by (symmetry; apply Z.ltb_lt; lia).
    change ("" +:+ String c tail) with (String c tail).
    unfold at_. rewrite Nat2Z.id, substring_at.
    replace (String.eqb (String c "") ".") with false; [reflexivity|].
    symmetry. apply String.eqb_neq. congruence.
  - cbn [only] in Hdots. destruct Hdots as [-> Hdots].
    destruct n as [| n]; [cbn in Hn; lia|]. cbn [splitext_loop].
    cbn [String.length] in Hn, Hd.
    replace (Z.of_nat (String.length pre) <? d) with true
      by (symmetry; apply Z.ltb_lt; lia).
    rewrite app_cons_s. unfold at_ at 1. rewrite Nat2Z.id, substring_at.
    cbn [String.eqb Ascii.eqb Bool.eqb negb].
    replace (pre +:+ String "." (dots +:+ String c tail))
      with ((pre +:+ ".") +:+ dots +:+ String c tail)
      by (rewrite app_assoc_s; reflexivity).
    replace (Z.of_nat (String.length pre) + 1)
      with (Z.of_nat (String.length (pre +:+ ".")))
      by (rewrite length_app_s; cbn [String.length]; lia).
    apply IH; try assumption; [lia|].
    rewrite length_app_s. cbn [String.length]. lia.
Qed.

(** The extension of a name without directory part: what follows its last
    period, when a character other than a period comes before. *)
Lemma splitext_suffix (dots rest e : string) (c : ascii) :
  only "."%char dots -> c <> "."%char -> c <> "/"%char ->
  lacks "/"%char rest -> lacks "."%char e -> lacks "/"%char e ->
  splitext (dots +:+ String c rest +:+ "." +:+ e) =
  (dots +:+ String c rest, "." +:+ e).
Proof.
  intros Hdots Hc Hslash Hrest He Hes.
  set (root := dots +:+ String c rest).
  assert (Hp : dots +:+ String c rest +:+ "." +:+ e = root +:+ "." +:+ e).
  { unfold root. rewrite !app_assoc_s. reflexivity. }
  assert (Hdots_slash : lacks "/"%char dots).
  { clear -Hdots. induction dots as [| x dots IH]; [exact I|].
    cbn in *. destruct Hdots as [-> Hd]. split; [discriminate | auto]. }
  assert (Hsep : rfind "/"%char (root +:+ "." +:+ e) = -1).
  { unfold rfind. apply rfind_from_lacks.
    unfold root. rewrite !lacks_app. cbn [lacks].
    repeat split; try assumption; discriminate. }
  assert (Hdot : rfind "."%char (root +:+ "." +:+ e)
                 = Z.of_nat (String.length root)).
  { unfold rfind. rewrite rfind_from_app.
    change ("." +:+ e) with (String "."%char e). cbn [rfind_from].
    rewrite Ascii.eqb_refl. rewrite rfind_from_lacks by assumption. lia. }
  rewrite Hp. unfold splitext. rewrite Hsep, Hdot.
  replace (-1 <? Z.of_nat (String.length root)) with true
    by (symmetry; apply Z.ltb_lt; lia).
  change (-1 + 1) with (Z.of_nat (String.length "")).
  pose proof (splitext_loop_dots dots "" (rest +:+ "." +:+ e) c
                (String.length (root +:+ "." +:+ e))
                (Z.of_nat (String.length root)) Hdots Hc) as Hloop.
  change ("" +:+ ?x) with x in Hloop.
  replace (dots +:+ String c (rest +:+ "." +:+ e)) with (root +:+ "." +:+ e) in Hloop
    by (unfold root; rewrite !app_assoc_s; reflexivity).
  rewrite Hloop.
  - rewrite take_prefix, drop_prefix. reflexivity.
  - unfold root. rewrite !length_app_s. cbn [String.length]. lia.
  - unfold root. rewrite !length_app_s. cbn [String.length]. lia.
Qed.

End FileNames.

(** ** Letter case and concatenation *)

Section CaseAndConcat.
Import App PyStr.

Lemma lower_char_idemp (c : ascii) : lower_char (lower_char c) = lower_char c.
Proof. destruct c as [[] [] [] [] [] [] [] []]; reflexivity. Qed.

Lemma lower_idemp (s : string) : lower (lower s) = lower s.
Proof.
  induction s as [| c s IH]; [reflexivity|].
  cbn [lower]. rewrite lower_char_idemp, IH. reflexivity.
Qed.

Lemma lower_app (a b : string) : lower (a +:+ b) = lower a +:+ lower b.
Proof.
  induction a as [| c a IH]; [reflexivity|].
  rewrite app_cons_s. cbn [lower]. rewrite IH. reflexivity.
Qed.

Lemma split_from_app_space (a b cur : string) (sp : ascii) :
  isspace sp = true ->
  split_from cur (a +:+ String sp b) = (split_from cur a ++ split b)%list.
Proof.
  intros Hsp. revert cur. induction a as [| c a IH]; intros cur.
  - change ("" +:+ String sp b) with (String sp b). cbn [split_from].
    rewrite Hsp. unfold split. destruct (String.eqb cur ""); reflexivity.
  - rewrite app_cons_s. cbn [split_from].
    destruct (isspace c); [destruct (String.eqb cur "")|]; rewrite IH; reflexivity.
Qed.

Lemma word_set_app_space (a b : string) :
  word_set (a +:+ " " +:+ b) = word_set a ∪ word_set b.
Proof.
  unfold word_set. rewrite lower_app.
  change (lower (" " +:+ b)) with (String " "%char (lower b)).
  unfold split at 1. rewrite split_from_app_space by reflexivity.
  apply list_to_set_app_L.
Qed.

Lemma word_set_lower (txt : string) : word_set (lower txt) = word_set txt.
Proof. unfold word_set. rewrite lower_idemp. reflexivity. Qed.

End CaseAndConcat.

Section JobMatchMore.
Import App PyStr.

(** X7.  Letter case does not count in the job match. *)
Theorem job_match_ignores_case (resume_text job_description : string) :
  job_match_percentage (lower resume_text) job_description =
    job_match_percentage resume_text job_description /\
  job_match_percentage resume_text (lower job_description) =
    job_match_percentage resume_text job_description.
Proof.
  rewrite !job_match_percentage_unfold. unfold spec_job_match.
  rewrite !word_set_lower. split; reflexivity.
Qed.

(** X8.  The order of the words and their repetition do not count in the
    job match, in the resume and in the job description. *)
Theorem job_match_ignores_order (a b other : string) :
  job_match_percentage (a +:+ " " +:+ b) other =
    job_match_percentage (b +:+ " " +:+ a) other /\
  job_match_percentage other (a +:+ " " +:+ b) =
    job_match_percentage other (b +:+ " " +:+ a) /\
  job_match_percentage (a +:+ " " +:+ a) other = job_match_percentage a other /\
  job_match_percentage other (a +:+ " " +:+ a) = job_match_percentage other a.
Proof.
  rewrite !job_match_percentage_unfold. unfold spec_job_match.
  rewrite !word_set_app_space.
  rewrite (union_comm_L (word_set b) (word_set a)), union_idemp_L.
  repeat split; reflexivity.
Qed.

(** X9.  When the job description has a word and shares none with the
    resume, the job match score is 0.0. *)
Theorem job_match_nothing_common (resume_text job_description : string) :
  word_set job_description <> ∅ ->
  word_set resume_text ∩ word_set job_description = ∅ ->
  job_match_percentage resume_text job_description = PyFloat float_zero.
Proof.
  intros Hne Hdisj. rewrite job_match_percentage_unfold. unfold spec_job_match.
  rewrite Hdisj. apply spec_percentage_none. assumption.
Qed.

End JobMatchMore.

Section FormatMore.
Import App PyStr.

Lemma Substring_app_l (k a b : string) : Substring k a -> Substring k (a +:+ b).
Proof.
  intros (pre & post & ->). exists pre, (post +:+ b).
  rewrite !app_assoc_s. reflexivity.
Qed.

Lemma Substring_app_r (k a b : string) : Substring k b -> Substring k (a +:+ b).
Proof.
  intros (pre & post & ->). exists (a +:+ pre), post.
  rewrite !app_assoc_s. reflexivity.
Qed.

Lemma filter_sublist_weaken {A : Type} (p q : A -> bool) (l : list A) :
  (forall x, p x = true -> q x = true) ->
  sublist (filter (fun x => p x = true) l) (filter (fun x => q x = true) l).
Proof.
  intros Hpq. induction l as [| x l IH]; [constructor|].
  rewrite !filter_cons.
  destruct (decide (p x = true)) as [Hp | Hp].
  - destruct (decide (q x = true)) as [Hq | Hq].
    + apply sublist_skip. exact IH.
    + destruct (Hq (Hpq x Hp)).
  - destruct (decide (q x = true)); [apply sublist_cons|]; exact IH.
Qed.

Lemma existsb_contains_app (kws : list string) (a b : string) :
  negb (existsb (fun keyword => contains keyword (a +:+ b)) kws) = true ->
  negb (existsb (fun keyword => contains keyword a) kws) = true /\
  negb (existsb (fun keyword => contains keyword b) kws) = true.
Proof.
  rewrite !negb_true_iff, !existsb_contains_false. intros H.
  split; intros kw Hin Hsub; apply (H kw Hin);
    [apply Substring_app_l | apply Substring_app_r]; exact Hsub.
Qed.

(** X10.  Adding text never adds a missing section. *)
Theorem check_resume_format_more_text (a b : string) :
  sublist (check_resume_format (a +:+ b)) (check_resume_format a) /\
  sublist (check_resume_format (a +:+ b)) (check_resume_format b).
Proof.
  unfold check_resume_format. rewrite lower_app.
  split; apply (fmap_sublist fst); apply filter_sublist_weaken;
    intros [section keywords] H; apply existsb_contains_app in H; tauto.
Qed.

(** X11.  Letter case does not count in the format check. *)
Theorem check_resume_format_ignores_case (resume_text : string) :
  check_resume_format (lower resume_text) = check_resume_format resume_text.
Proof. unfold check_resume_format. rewrite lower_idemp. reflexivity. Qed.

Lemma existsb_contains_true (kws : list string) (hay : string) :
  existsb (fun keyword => contains keyword hay) kws = true <->
  exists kw, In kw kws /\ Substring kw hay.
Proof.
  rewrite existsb_exists. split; intros (kw & Hin & H); exists kw;
    (split; [assumption|]); apply contains_spec; assumption.
Qed.

(** X12.  No section is missing exactly when every section has a keyword
    in the lower-cased text; the list of missing sections has no repetition
    and at most five names. *)
Theorem check_resume_format_complete (resume_text : string) :
  (check_resume_format resume_text = [] <->
   forall section keywords, In (section, keywords) sections ->
     exists keyword, In keyword keywords /\
                     Substring keyword (lower resume_text)) /\
  NoDup (check_resume_format resume_text) /\
  (length (check_resume_format resume_text) <= 5)%nat.
Proof.
  assert (Hsub : sublist (check_resume_format resume_text) (map fst sections)).
  { unfold check_resume_format.
    apply (fmap_sublist fst (filter _ sections) sections), sublist_filter. }
  split; [|split].
  - unfold check_resume_format. split.
    + intros Hnil section keywords Hin.
      apply existsb_contains_true.
      destruct (existsb (fun keyword => contains keyword (lower resume_text))
                        keywords) eqn:E; [reflexivity|].
      exfalso.
      assert (Hmem : (section, keywords) ∈
                filter (fun sk : string * list string =>
                          negb (existsb (fun keyword =>
                                  contains keyword (lower resume_text)) (snd sk))
                          = true) sections).
      { apply list_elem_of_filter. split; [cbn [snd]; rewrite E; reflexivity|].
        apply list_elem_of_In. exact Hin. }
      apply (list_elem_of_fmap_2 fst) in Hmem.
      change (fst <$> ?l) with (map fst l) in Hmem.
      rewrite Hnil in Hmem. apply elem_of_nil in Hmem. exact Hmem.
    + clear Hsub. generalize sections. intros l Hall.
      induction l as [| [section keywords] l IH]; [reflexivity|].
      rewrite filter_cons.
      destruct (decide _) as [Hyes | Hno].
      * exfalso. cbn [snd] in Hyes. apply negb_true_iff in Hyes.
        destruct (Hall section keywords (or_introl eq_refl)) as (kw & Hin & Hs).
        assert (existsb (fun keyword => contains keyword (lower resume_text))
                        keywords = true)
          by (apply existsb_contains_true; eauto).
        congruence.
      * apply IH. intros s k Hin. apply (Hall s k). right. exact Hin.
  - eapply sublist_NoDup; [apply sections_NoDup | exact Hsub].
  - apply sublist_length in Hsub. rewrite length_map in Hsub. exact Hsub.
Qed.

End FormatMore.

(** ** More on the skill matcher *)

Section SkillsMore.
Import App PyStr.
Context {L : Libs}.

Lemma catalog_size (job_role : string) (catalog : gset string) :
  predefined_skills !! job_role = Some catalog ->
  (1 <= size catalog <= 11)%nat.
Proof.
  unfold predefined_skills. intros H.
  repeat (apply lookup_insert_Some in H; destruct H as [[_ <-] | [_ H]];
          [vm_compute; split; repeat constructor|]).
  rewrite lookup_empty in H. discriminate.
Qed.

(** The scores of up to eleven skills, computed: the score grows strictly
    with the number of matched skills, and only the extreme counts give 0.0
    and 100.0. *)
Lemma percentage_table :
  forallb (fun n =>
    forallb (fun b =>
      implb (b <=? n)%nat
        (implb (SF_same (to_float (percentage_of_counts (Z.of_nat b) (Z.of_nat n)))
                        float_hundred) (b =? n)%nat
         && implb (SF_same (to_float (percentage_of_counts (Z.of_nat b) (Z.of_nat n)))
                           float_zero) (b =? 0)%nat
         && forallb (fun a =>
              implb (a <? b)%nat
                (PyNum.lt (percentage_of_counts (Z.of_nat a) (Z.of_nat n))
                          (percentage_of_counts (Z.of_nat b) (Z.of_nat n))))
              (seq 0 12)))
      (seq 0 12))
    (seq 1 11) = true.
Proof. vm_compute. reflexivity. Qed.

Lemma percentage_table_at (a b n : nat) :
  (1 <= n <= 11)%nat -> (b <= n)%nat ->
  (percentage_of_counts (Z.of_nat b) (Z.of_nat n) = PyFloat float_hundred -> b = n) /\
  (percentage_of_counts (Z.of_nat b) (Z.of_nat n) = PyFloat float_zero -> b = 0%nat) /\
  ((a < b)%nat ->
   PyNum.lt (percentage_of_counts (Z.of_nat a) (Z.of_nat n))
            (percentage_of_counts (Z.of_nat b) (Z.of_nat n)) = true).
Proof.
  intros Hn Hb. pose proof percentage_table as T.
  rewrite forallb_forall in T. specialize (T n ltac:(apply in_seq; lia)).
  rewrite forallb_forall in T. specialize (T b ltac:(apply in_seq; lia)).
  apply Nat.leb_le in Hb. rewrite Hb in T. cbn [implb] in T.
  apply andb_true_iff in T. destruct T as [T Tlt].
  apply andb_true_iff in T. destruct T as [T100 T0].
  split; [|split].
  - intros E. rewrite E in T100. cbn in T100. apply Nat.eqb_eq. exact T100.
  - intros E. rewrite E in T0. cbn in T0. apply Nat.eqb_eq. exact T0.
  - intros Hab. rewrite forallb_forall in Tlt.
    specialize (Tlt a ltac:(apply in_seq; apply Nat.leb_le in Hb; lia)).
    apply Nat.ltb_lt in Hab. rewrite Hab in Tlt. exact Tlt.
Qed.

Lemma spec_percentage_counts (part whole : gset string) :
  whole <> ∅ ->
  spec_percentage part whole =
  percentage_of_counts (Z.of_nat (size part)) (Z.of_nat (size whole)).
Proof.
  intros Hne. unfold spec_percentage. destruct (decide (whole = ∅)); [contradiction|].
  reflexivity.
Qed.

(** X4.  A role that is not in the catalog has no skill: nothing is matched,
    nothing is missing and the score is the integer 0. *)
Theorem match_skills_unknown_role (resume_text job_role : string) :
  predefined_skills !! job_role = None ->
  match_skills resume_text job_role = (∅, ∅, PyInt 0).
Proof.
  intros Hnone. rewrite match_skills_unfold, Hnone. cbn [default from_option id].
  unfold spec_match_skills. rewrite intersection_empty_r_L, difference_diag_L.
  reflexivity.
Qed.

(** X5.  For a role of the catalog, a resume with more matched skills has a
    strictly greater score. *)
Theorem skill_score_strict (resume_a resume_b job_role : string)
    (catalog : gset string) :
  predefined_skills !! job_role = Some catalog ->
  (size (extract_skills_nlp resume_a ∩ catalog)
   < size (extract_skills_nlp resume_b ∩ catalog))%nat ->
  PyNum.lt (snd (match_skills resume_a job_role))
           (snd (match_skills resume_b job_role)) = true.
Proof.
  intros Hrole Hlt. pose proof (catalog_nonempty _ _ Hrole) as Hne.
  pose proof (catalog_size _ _ Hrole) as Hsize.
  rewrite !match_skills_unfold, Hrole. cbn [default from_option id].
  unfold spec_match_skills. cbn [snd].
  rewrite !spec_percentage_counts by assumption.
  apply percentage_table_at; [assumption | | assumption].
  apply subseteq_size, intersection_subseteq_r.
Qed.

(** X6.  For a role of the catalog the score is 100.0 only when no skill is
    missing, and 0.0 only when no skill is matched. *)
Theorem skill_score_extremes_only (resume_text job_role : string)
    (catalog : gset string) :
  predefined_skills !! job_role = Some catalog ->
  let '(matched_skills, missing_skills, match_percentage) :=
    match_skills resume_text job_role in
  (match_percentage = PyFloat float_hundred -> missing_skills = ∅) /\
  (match_percentage = PyFloat float_zero -> matched_skills = ∅).
Proof.
  intros Hrole. pose proof (catalog_nonempty _ _ Hrole) as Hne.
  pose proof (catalog_size _ _ Hrole) as Hsize.
  rewrite match_skills_unfold, Hrole. cbn [default from_option id].
  unfold spec_match_skills. cbv beta iota zeta.
  set (matched := extract_skills_nlp resume_text ∩ catalog).
  assert (Hsub : (size matched <= size catalog)%nat)
    by (apply subseteq_size, intersection_subseteq_r).
  rewrite spec_percentage_counts by assumption.
  destruct (percentage_table_at 0 (size matched) (size catalog) Hsize Hsub)
    as (H100 & H0 & _).
  destruct (partition_by_intersection (extract_skills_nlp resume_text) catalog)
    as (_ & _ & Hsum). fold matched in Hsum.
  split.
  - intros E. apply H100 in E.
    apply leibniz_equiv, size_empty_iff. lia.
  - intros E. apply H0 in E. apply leibniz_equiv, size_empty_iff. exact E.
Qed.

End SkillsMore.

(** ** What is displayed *)

Section Display.
Import App PyStr.

Lemma round_half_even_le (num den bound : Z) :
  0 < den -> 0 <= num <= bound * den ->
  0 <= round_half_even num den <= bound.
Proof.
  intros Hden [H0 Hb]. unfold round_half_even.
  assert (Hq0 : 0 <= num / den) by (apply Z.div_pos; lia).
  assert (Hqb : num / den <= bound).
  { apply Z.div_le_upper_bound; [lia|]. lia. }
  pose proof (Z.mod_pos_bound num den Hden) as Hr.
  pose proof (Z.div_mod num den ltac:(lia)) as Hdm.
  destruct (Z.eq_dec (num / den) bound) as [Heq | Hne].
  - assert (num mod den = 0) by nia.
    replace (2 * (num mod den) ?= den) with Lt; [lia|].
    symmetry. apply Z.compare_lt_iff. lia.
  - destruct (2 * (num mod den) ?= den); [destruct (Z.even _)| |]; lia.
Qed.

Lemma format_2f_percentage (x : pynum) :
  is_percentage x ->
  exists h, 0 <= h <= 10000 /\ format_2f x = hundredths h.
Proof.
  destruct x as [z | f]; cbn [is_percentage].
  - intros Hz. exists (100 * z). split; [lia|].
    cbn [format_2f]. replace (z <? 0) with false by (symmetry; apply Z.ltb_ge; lia).
    rewrite Z.abs_eq by lia. reflexivity.
  - intros [-> | (m & e & -> & He & Hm)].
    + exists 0. split; [lia | reflexivity].
    + cbn [format_2f]. destruct e as [| p | p]; try lia.
      * exists (100 * Zpos m * 2 ^ 0). split; [|reflexivity].
        change (2 ^ (- 0)) with 1 in Hm. change (2 ^ 0) with 1. lia.
      * exists (round_half_even (100 * Zpos m) (2 ^ Zpos p)).
        split; [|reflexivity].
        change (- Zneg p) with (Zpos p) in Hm.
        apply round_half_even_le; [apply Z.pow_pos_nonneg; lia | lia].
Qed.

(** X14.  Each of the two scores is displayed as a whole number of
    hundredths between 0.00 and 100.00. *)
Theorem displayed_scores_bounded `{Libs}
    (resume_text job_role job_description : string) :
  (exists h, 0 <= h <= 10000 /\
     format_2f (snd (match_skills resume_text job_role)) = hundredths h) /\
  (exists h, 0 <= h <= 10000 /\
     format_2f (job_match_percentage resume_text job_description) = hundredths h).
Proof.
  split; apply format_2f_percentage.
  - rewrite match_skills_unfold. unfold spec_match_skills. cbn [snd].
    apply spec_percentage_value, intersection_subseteq_r.
  - rewrite job_match_percentage_unfold. unfold spec_job_match.
    apply spec_percentage_value, intersection_subseteq_r.
Qed.

End Display.

(** ** More on the text extractor and the loop *)

Section ShellMore.
Import App PyStr.
Context {L : Libs}.

(** X1.  A file is handed to a parser only when its name ends in .pdf or
    .docx, in any letter case. *)
Theorem parsed_only_by_suffix (f : UploadedFile) :
  extract_text f <> Ok None ->
  exists root ext, name f = root +:+ ext /\
                   (lower ext = ".pdf" \/ lower ext = ".docx").
Proof.
  intros Hparsed.
  exists (fst (splitext (name f))), (snd (splitext (name f))).
  split; [symmetry; apply splitext_join|].
  fold (file_extension f).
  destruct (String.eqb_spec (file_extension f) ".pdf") as [E | Hpdf]; [auto|].
  destruct (String.eqb_spec (file_extension f) ".docx") as [E | Hdocx]; [auto|].
  destruct Hparsed. apply extract_text_unsupported; assumption.
Qed.

(** X2.  A name without directory part that ends in a period and "pdf" or
    "docx" in any letter case, after a character other than a period, sends
    the file to the matching parser: its exception is passed on, its texts
    are joined by newlines, the pages without text left out. *)
Theorem extract_text_dispatch (f : UploadedFile) (dots rest e : string) (c : ascii) :
  name f = dots +:+ String c rest +:+ "." +:+ e ->
  only "."%char dots -> c <> "."%char -> c <> "/"%char ->
  lacks "/"%char rest -> lacks "."%char e -> lacks "/"%char e ->
  (lower e = "pdf" ->
   (forall err, pdf_pages f = Raise err -> extract_text f = Raise err) /\
   (forall pages, pdf_pages f = Ok pages ->
      extract_text f =
      Ok (Some (join newline
                  (omap (fun t => if truthy_opt t then t else None) pages))))) /\
  (lower e = "docx" ->
   (forall err, docx_paragraphs f = Raise err -> extract_text f = Raise err) /\
   (forall paragraphs, docx_paragraphs f = Ok paragraphs ->
      extract_text f = Ok (Some (join newline paragraphs)))).
Proof.
  intros Hname Hdots Hc Hs Hrest He Hes.
  assert (Hext : lower (snd (splitext (name f))) = "." +:+ lower e).
  { rewrite Hname, splitext_suffix by assumption. cbn [snd].
    rewrite lower_app. reflexivity. }
  unfold extract_text. rewrite Hext. split; intros ->.
  - cbn [String.eqb Ascii.eqb Bool.eqb String.append].
    split; intros ? ->; reflexivity.
  - cbn [String.eqb Ascii.eqb Bool.eqb String.append].
    split; intros ? ->; reflexivity.
Qed.

Lemma omap_no_text (pages : list (option string)) :
  Forall (fun t => t = None \/ t = Some "") pages ->
  omap (fun t : option string => if truthy_opt t then t else None) pages = [].
Proof.
  induction 1 as [| t pages [-> | ->] _ IH]; [reflexivity | |]; cbn; exact IH.
Qed.

(** X3.  A PDF none of whose pages has text, and a DOCX without paragraph,
    give the empty text, and the loop passes the file over in silence. *)
Theorem empty_document_skipped (f : UploadedFile) :
  (file_extension f = ".pdf" /\
   exists pages, pdf_pages f = Ok pages /\
                 Forall (fun t => t = None \/ t = Some "") pages) \/
  (file_extension f = ".docx" /\ docx_paragraphs f = Ok []) ->
  extract_text f = Ok (Some "") /\
  forall job_description job_role log,
    analyse_file job_description job_role f log = (Ok tt, log).
Proof.
  intros H.
  assert (Htext : extract_text f = Ok (Some "")).
  { unfold extract_text. fold (file_extension f).
    destruct H as [(-> & pages & -> & Hall) | (-> & ->)].
    - cbn. rewrite omap_no_text by assumption. reflexivity.
    - reflexivity. }
  split; [exact Htext|].
  intros. unfold analyse_file, ui_bind, lift. rewrite Htext. reflexivity.
Qed.

Lemma for_each_app_bind (job_description job_role : string)
    (first_files more_files : list UploadedFile) (log : list st_call) :
  for_each job_description job_role (first_files ++ more_files) log =
  match for_each job_description job_role first_files log with
  | (Ok _, log') => for_each job_description job_role more_files log'
  | (Raise e, log') => (Raise e, log')
  end.
Proof.
  revert log. induction first_files as [| f files IH]; intros log.
  - reflexivity.
  - cbn [app for_each]. unfold ui_bind.
    destruct (analyse_file job_description job_role f log) as [[[] | e] log'].
    + apply IH.
    + reflexivity.
Qed.

(** X16.  The files are analysed one after the other: a run over two batches
    is the run over the first one and, unless that raised, the run over the
    second one from there; an exception ends the run. *)
Theorem main_batches (first_files more_files : list UploadedFile)
    (job_description job_role : string) (log : list st_call) :
  main (first_files ++ more_files) job_description job_role log =
  match main first_files job_description job_role log with
  | (Ok _, log') => main more_files job_description job_role log'
  | (Raise e, log') => (Raise e, log')
  end.
Proof.
  unfold main. destruct (truthy job_description).
  - rewrite !andb_true_r.
    rewrite (for_each_nil_or _ _ (first_files ++ more_files)).
    rewrite (for_each_nil_or _ _ first_files), for_each_app_bind.
    destruct (for_each job_description job_role first_files log)
      as [[[] | e] log']; [|reflexivity].
    symmetry. apply for_each_nil_or.
  - rewrite !andb_false_r. reflexivity.
Qed.

(** X17.  When the parser raises on a file, the run ends with that exception
    at that file: what the files before it displayed stays, the file itself
    displays nothing, and the files after it are not looked at. *)
Theorem parser_exception_ends_run (f : UploadedFile) (err : string) :
  extract_text f = Raise err ->
  forall before after job_description job_role log,
    truthy job_description = true ->
    main (before ++ f :: after) job_description job_role log =
    match main before job_description job_role log with
    | (Ok _, log') => (Raise err, log')
    | (Raise e, log') => (Raise e, log')
    end.
Proof.
  intros Hraise before after job_description job_role log Hjd.
  unfold main. rewrite Hjd, !andb_true_r, !for_each_nil_or, for_each_app_bind.
  destruct (for_each job_description job_role before log) as [[[] | e] log'];
    [|reflexivity].
  cbn [for_each]. unfold ui_bind, analyse_file at 1, lift.
  unfold ui_bind. rewrite Hraise. reflexivity.
Qed.

End ShellMore.


(** ** The further statements at sample inputs *)

Section MoreWitnesses.
Import App Sample.

Lemma parsed_only_by_suffix_witness :
  @extract_text word_libs resume_pdf <> Ok None /\
  exists root ext, name resume_pdf = root +:+ ext /\
                   (PyStr.lower ext = ".pdf" \/ PyStr.lower ext = ".docx").
Proof.
  assert (H : @extract_text word_libs resume_pdf <> Ok None) by discriminate.
  split; [exact H|]. apply (@parsed_only_by_suffix word_libs resume_pdf H).
Defined.

Lemma extract_text_dispatch_witness :
  name resume_pdf = "" +:+ String "r"%char "esume" +:+ "." +:+ "PDF" /\
  PyStr.lower "PDF" = "pdf" /\
  @extract_text word_libs resume_pdf =
    Ok (Some "Python and SQL experience, Docker skills").
Proof.
  split; [reflexivity|]. split; [reflexivity|].
  destruct (@extract_text_dispatch word_libs resume_pdf "" "esume" "PDF" "r"%char)
    as [Hpdf _].
  - reflexivity.
  - exact I.
  - discriminate.
  - discriminate.
  - cbn. repeat split; discriminate.
  - cbn. repeat split; discriminate.
  - cbn. repeat split; discriminate.
  - destruct (Hpdf eq_refl) as [_ Hok].
    rewrite (Hok _ eq_refl). reflexivity.
Defined.

Lemma empty_document_skipped_witness :
  file_extension blank_pdf = ".pdf" /\
  @pdf_pages line_libs blank_pdf = Ok [Some ""; None] /\
  @extract_text line_libs blank_pdf = Ok (Some "") /\
  @main line_libs [blank_pdf] "python developer" "Software Engineer" []
    = (Ok tt, []).
Proof.
  split; [reflexivity|]. split; [reflexivity|].
  destruct (@empty_document_skipped line_libs blank_pdf) as [Htext Hskip].
  - left. split; [reflexivity|]. exists [Some ""; None].
    split; [reflexivity|].
    constructor; [right; reflexivity|]. constructor; [left; reflexivity|].
    constructor.
  - split; [exact Htext|].
    unfold main. cbn [nonempty_list andb PyStr.truthy String.eqb negb for_each].
    unfold ui_bind. rewrite Hskip. reflexivity.
Defined.

Lemma match_skills_unknown_role_witness :
  predefined_skills !! "Chef" = None /\
  @match_skills word_libs "Python and SQL" "Chef" = (∅, ∅, PyInt 0).
Proof.
  split; [reflexivity|].
  apply (@match_skills_unknown_role word_libs). reflexivity.
Defined.

Lemma skill_score_strict_witness :
  predefined_skills !! "Marketing" = Some marketing_skills /\
  (size (@extract_skills_nlp word_libs "SEO for a bakery" ∩ marketing_skills)
   < size (@extract_skills_nlp word_libs "SEO and Branding" ∩ marketing_skills))%nat /\
  PyNum.lt (snd (@match_skills word_libs "SEO for a bakery" "Marketing"))
           (snd (@match_skills word_libs "SEO and Branding" "Marketing")) = true.
Proof.
  assert (Hlt : (size (@extract_skills_nlp word_libs "SEO for a bakery" ∩ marketing_skills)
     < size (@extract_skills_nlp word_libs "SEO and Branding" ∩ marketing_skills))%nat).
  { apply Nat.ltb_lt. vm_compute. reflexivity. }
  split; [reflexivity|]. split; [exact Hlt|].
  apply (@skill_score_strict word_libs "SEO for a bakery" "SEO and Branding"
           "Marketing" marketing_skills eq_refl Hlt).
Defined.

Lemma skill_score_extremes_only_witness :
  predefined_skills !! "Cybersecurity Analyst" = Some security_skills /\
  let '(matched_skills, missing_skills, match_percentage) :=
    @match_skills line_libs security_resume "Cybersecurity Analyst" in
  (match_percentage = PyFloat float_hundred -> missing_skills = ∅) /\
  (match_percentage = PyFloat float_zero -> matched_skills = ∅).
Proof.
  split; [reflexivity|].
  apply (@skill_score_extremes_only line_libs security_resume
           "Cybersecurity Analyst" security_skills eq_refl).
Defined.

Lemma job_match_nothing_common_witness :
  word_set "python sql" <> ∅ /\
  word_set "Java  developer" ∩ word_set "python sql" = ∅ /\
  job_match_percentage "Java  developer" "python sql" = PyFloat float_zero.
Proof.
  assert (Hne : word_set "python sql" <> ∅).
  { intros E. apply (f_equal size) in E. vm_compute in E. discriminate. }
  assert (Hdisj : word_set "Java  developer" ∩ word_set "python sql" = ∅)
    by (vm_compute; reflexivity).
  split; [exact Hne|]. split; [exact Hdisj|].
  apply job_match_nothing_common; assumption.
Defined.

Lemma parser_exception_ends_run_witness :
  @extract_text line_libs broken_docx = Raise "PackageNotFoundError" /\
  PyStr.truthy "python developer" = true /\
  @main line_libs [blank_pdf; broken_docx; resume_pdf] "python developer"
        "Software Engineer" []
    = (Raise "PackageNotFoundError", []).
Proof.
  assert (Hraise : @extract_text line_libs broken_docx
                   = Raise "PackageNotFoundError") by reflexivity.
  split; [exact Hraise|]. split; [reflexivity|].
  change [blank_pdf; broken_docx; resume_pdf]
    with ([blank_pdf] ++ broken_docx :: [resume_pdf])%list.
  rewrite (@parser_exception_ends_run line_libs broken_docx _ Hraise
             [blank_pdf] [resume_pdf] "python developer" "Software Engineer" []
             eq_refl).
  reflexivity.
Defined.

End MoreWitnesses.
